(** * WooCommerce REST client: request signing and dispatch

    A shallow embedding of [woocommerce/client.go]: the Basic and OAuth 1.0a
    query signers ([basicAuth], [oauth], [oauthSign]), the request builder
    ([request]) and the five public operations built on it.

    Go strings are byte sequences, and so are Rocq's [string]s (lists of
    8-bit [ascii]); a [[]byte] is a list of [Z] in [0, 256).  The pieces of
    the Go standard library the client calls are modelled first: SHA-1,
    SHA-256, HMAC, base64, [url.QueryEscape], [strconv.Itoa] and
    [url.Values]. *)

From Stdlib Require Import ZArith List String Ascii Lia.
From Stdlib Require Import DecimalString DecimalPos DecimalZ.
From stdpp Require Import base gmap strings list sorting.

Local Open Scope Z_scope.

(** ** Bytes and strings *)

Definition byte_of_ascii (c : ascii) : Z := Z.of_N (N_of_ascii c).
Definition ascii_of_byte (b : Z) : ascii := ascii_of_N (Z.to_N b).

(** [[]byte(s)] *)
Definition bytes_of_string (s : string) : list Z :=
  map byte_of_ascii (list_ascii_of_string s).

(** [strings.Join(elems, sep)] *)
Fixpoint Join (elems : list string) (sep : string) : string :=
  match elems with
  | [] => ""
  | [e] => e
  | e :: rest => e +:+ sep +:+ Join rest sep
  end.

(** Character at index [i] of a digit alphabet. *)
Definition digit_of (alphabet : string) (i : Z) : ascii :=
  match String.get (Z.to_nat i) alphabet with
  | Some c => c
  | None => "?"%char
  end.

(** Splitting a byte sequence into chunks of [n] bytes; [fuel] bounds the
    number of chunks. *)
Fixpoint chunks (n fuel : nat) (l : list Z) : list (list Z) :=
  match fuel with
  | O => []
  | S fuel' =>
      match l with
      | [] => []
      | _ => take n l :: chunks n fuel' (drop n l)
      end
  end.

(** ** 32-bit words *)

Module Word32.

Definition wrap (x : Z) : Z := x mod 4294967296.

Definition add (x y : Z) : Z := wrap (x + y).

Definition not (x : Z) : Z := Z.lxor x 0xFFFFFFFF.

Definition rotl (n x : Z) : Z :=
  Z.lor (wrap (Z.shiftl x n)) (Z.shiftr x (32 - n)).

Definition rotr (n x : Z) : Z := rotl (32 - n) x.

(** Big-endian bytes to integer and back. *)
Definition of_be (bs : list Z) : Z :=
  fold_left (fun acc b => Z.lor (Z.shiftl acc 8) b) bs 0.

Fixpoint to_be (n : nat) (x : Z) : list Z :=
  match n with
  | O => []
  | S n' => to_be n' (Z.shiftr x 8) ++ [Z.land x 0xFF]
  end.

(** The sixteen words of a 64-byte block. *)
Definition block_words (block : list Z) : list Z :=
  map of_be (chunks 4 16 block).

End Word32.

(** Merkle-Damgard padding shared by SHA-1 and SHA-256: a [0x80] byte,
    zeros up to 56 modulo 64, and the bit length on 8 bytes. *)
Definition md_pad (msg : list Z) : list Z :=
  let len := Z.of_nat (length msg) in
  msg ++ [0x80] ++ repeat 0 (Z.to_nat ((55 - len) mod 64))
      ++ Word32.to_be 8 (8 * len).

Definition md_blocks (msg : list Z) : list (list Z) :=
  let p := md_pad msg in chunks 64 (length p) p.

(** ** crypto/sha256 *)

Module SHA256.
Import Word32.

(** The round constants and the initial hash value are the first 32
    bits of the fractional parts of the cube roots of the first 64
    primes and of the square roots of the first 8. *)
Definition primes : list Z :=
  [ 2; 3; 5; 7; 11; 13; 17; 19; 23; 29; 31; 37; 41; 43; 47; 53;
    59; 61; 67; 71; 73; 79; 83; 89; 97; 101; 103; 107; 109; 113; 127; 131;
    137; 139; 149; 151; 157; 163; 167; 173; 179; 181; 191; 193; 197; 199;
    211; 223; 227; 229; 233; 239; 241; 251; 257; 263; 269; 271; 277; 281;
    283; 293; 307; 311 ].

(** Integer cube root, one bit at a time from bit 35 down. *)
Definition cbrt (n : Z) : Z :=
  fold_left
    (fun r i => let r' := r + 2 ^ Z.of_nat i in
                if r' * r' * r' <=? n then r' else r)
    (rev (seq 0 36)) 0.

Definition K : list Z :=
  Eval vm_compute in map (fun p => wrap (cbrt (p * 2 ^ 96))) primes.

Definition init : list Z :=
  Eval vm_compute in
    map (fun p => wrap (Z.sqrt (p * 2 ^ 64))) (firstn 8 primes).

Definition ch (x y z : Z) : Z :=
  Z.lxor (Z.land x y) (Z.land (not x) z).
Definition maj (x y z : Z) : Z :=
  Z.lxor (Z.lxor (Z.land x y) (Z.land x z)) (Z.land y z).
Definition bsig0 (x : Z) : Z :=
  Z.lxor (Z.lxor (rotr 2 x) (rotr 13 x)) (rotr 22 x).
Definition bsig1 (x : Z) : Z :=
  Z.lxor (Z.lxor (rotr 6 x) (rotr 11 x)) (rotr 25 x).
Definition ssig0 (x : Z) : Z :=
  Z.lxor (Z.lxor (rotr 7 x) (rotr 18 x)) (Z.shiftr x 3).
Definition ssig1 (x : Z) : Z :=
  Z.lxor (Z.lxor (rotr 17 x) (rotr 19 x)) (Z.shiftr x 10).

(** One round.  The state is the eight working registers and a window
    holding the next sixteen words of the message schedule. *)
Definition round (st : list Z * list Z) (k : Z) : list Z * list Z :=
  match st with
  | ([a; b; c; d; e; f; g; h], win) =>
      let w := nth 0 win 0 in
      let t1 := add (add (add (add h (bsig1 e)) (ch e f g)) k) w in
      let t2 := add (bsig0 a) (maj a b c) in
      let w16 :=
        add (add (add (ssig1 (nth 14 win 0)) (nth 9 win 0))
                 (ssig0 (nth 1 win 0))) w in
      ([add t1 t2; a; b; c; add d t1; e; f; g], tl win ++ [w16])
  | _ => st
  end.

Definition compress (h : list Z) (block : list Z) : list Z :=
  let '(regs, _) := fold_left round K (h, block_words block) in
  zip_with add h regs.

(** [sha256.Sum256] *)
Definition Sum256 (msg : list Z) : list Z :=
  flat_map (to_be 4) (fold_left compress (md_blocks msg) init).

End SHA256.

(** ** crypto/sha1 *)

Module SHA1.
Import Word32.

Definition init : list Z :=
  [ 0x67452301; 0xEFCDAB89; 0x98BADCFE; 0x10325476; 0xC3D2E1F0 ].

Definition f (t : nat) (b c d : Z) : Z :=
  if (t <? 20)%nat then Z.lor (Z.land b c) (Z.land (not b) d)
  else if (t <? 40)%nat then Z.lxor (Z.lxor b c) d
  else if (t <? 60)%nat then
    Z.lor (Z.lor (Z.land b c) (Z.land b d)) (Z.land c d)
  else Z.lxor (Z.lxor b c) d.

Definition K (t : nat) : Z :=
  if (t <? 20)%nat then 0x5A827999
  else if (t <? 40)%nat then 0x6ED9EBA1
  else if (t <? 60)%nat then 0x8F1BBCDC
  else 0xCA62C1D6.

Definition round (st : list Z * list Z) (t : nat) : list Z * list Z :=
  match st with
  | ([a; b; c; d; e], win) =>
      let w := nth 0 win 0 in
      let tmp := add (add (add (add (rotl 5 a) (f t b c d)) e) w) (K t) in
      let w16 :=
        rotl 1 (Z.lxor (Z.lxor (Z.lxor (nth 13 win 0) (nth 8 win 0))
                               (nth 2 win 0)) w) in
      ([tmp; a; rotl 30 b; c; d], tl win ++ [w16])
  | _ => st
  end.

Definition compress (h : list Z) (block : list Z) : list Z :=
  let '(regs, _) := fold_left round (seq 0 80) (h, block_words block) in
  zip_with add h regs.

(** [sha1.Sum] *)
Definition Sum (msg : list Z) : list Z :=
  flat_map (to_be 4) (fold_left compress (md_blocks msg) init).

End SHA1.

(** ** crypto/hmac with SHA-256 *)

Definition hmac_block_key (key : list Z) : list Z :=
  let k := if (64 <? Z.of_nat (length key)) then SHA256.Sum256 key else key in
  k ++ repeat 0 (64 - length k)%nat.

(** [hmac.New(sha256.New, key)], [Write(msg)] and [Sum(nil)]. *)
Definition hmac_sha256 (key msg : list Z) : list Z :=
  let k := hmac_block_key key in
  let inner := SHA256.Sum256 (map (Z.lxor 0x36) k ++ msg) in
  SHA256.Sum256 (map (Z.lxor 0x5c) k ++ inner).

(** ** encoding/base64 and hexadecimal rendering *)

Definition base64_alphabet : string :=
  "ABCDEFGHIJKLMNOPQRSTUVWXYZabcdefghijklmnopqrstuvwxyz0123456789+/".

Definition b64 (i : Z) : ascii := digit_of base64_alphabet i.

(** [base64.StdEncoding.EncodeToString] *)
Fixpoint EncodeToString (src : list Z) : string :=
  match src with
  | [] => ""
  | [x] =>
      String (b64 (Z.shiftr x 2))
        (String (b64 (Z.shiftl (Z.land x 3) 4)) "==")
  | [x; y] =>
      String (b64 (Z.shiftr x 2))
        (String (b64 (Z.lor (Z.shiftl (Z.land x 3) 4) (Z.shiftr y 4)))
           (String (b64 (Z.shiftl (Z.land y 15) 2)) "="))
  | x :: y :: z :: rest =>
      String (b64 (Z.shiftr x 2))
        (String (b64 (Z.lor (Z.shiftl (Z.land x 3) 4) (Z.shiftr y 4)))
           (String (b64 (Z.lor (Z.shiftl (Z.land y 15) 2) (Z.shiftr z 6)))
              (String (b64 (Z.land z 63)) (EncodeToString rest))))
  end.

(** [fmt.Sprintf("%x", b)] on a byte array: two lower-case digits a byte. *)
Fixpoint hex_lower (b : list Z) : string :=
  match b with
  | [] => ""
  | x :: rest =>
      String (digit_of "0123456789abcdef" (Z.shiftr x 4))
        (String (digit_of "0123456789abcdef" (Z.land x 15)) (hex_lower rest))
  end.

(** ** strconv.Itoa *)

Definition Itoa (i : Z) : string := NilZero.string_of_int (Z.to_int i).

(** ** net/url: QueryEscape *)

Definition is_alnum (c : ascii) : bool :=
  let n := byte_of_ascii c in
  ((97 <=? n) && (n <=? 122)) || ((65 <=? n) && (n <=? 90))
  || ((48 <=? n) && (n <=? 57)).

(** [shouldEscape(c, encodeQueryComponent)]: everything but the unreserved
    characters is escaped in a query component. *)
Definition shouldEscape (c : ascii) : bool :=
  negb (is_alnum c
        || Ascii.eqb c "-" || Ascii.eqb c "_"
        || Ascii.eqb c "." || Ascii.eqb c "~").

Definition upperhex (i : Z) : ascii := digit_of "0123456789ABCDEF" i.

Definition escape_char (c : ascii) : string :=
  if Ascii.eqb c " " then "+"
  else if shouldEscape c then
    String "%" (String (upperhex (Z.shiftr (byte_of_ascii c) 4))
                  (String (upperhex (Z.land (byte_of_ascii c) 15)) ""))
  else String c "".

(** [url.QueryEscape] *)
Fixpoint QueryEscape (s : string) : string :=
  match s with
  | "" => ""
  | String c rest => escape_char c +:+ QueryEscape rest
  end.

(** ** net/url: Values

    [type Values map[string][]string].  A key may be bound to an empty
    slice, which [Get] reads as the empty string and [Encode] skips. *)

Abbreviation Values := (gmap string (list string)).

(** [v.Add(key, value)]: [v[key] = append(v[key], value)] *)
Definition Values_Add (key value : string) (v : Values) : Values :=
  <[key := default [] (v !! key) ++ [value]]> v.

(** [v.Get(key)]: the first value of [key], or the empty string *)
Definition Values_Get (v : Values) (key : string) : string :=
  match v !! key with
  | Some (x :: _) => x
  | _ => ""
  end.

(** [for k := range v { keys = append(keys, k) }; sort.Strings(keys)].
    Go ranges over a map in no fixed order; sorting makes the result
    independent of it. *)
Definition sorted_keys (v : Values) : list string :=
  merge_sort String.le (map_to_list v).*1.

(** One step of the inner loop of [Encode], writing [key=value] to the
    builder, after a [&] when the builder is not empty. *)
Definition encode_value (keyEscaped : string) (buf value : string) : string :=
  (if (0 <? String.length buf)%nat then buf +:+ "&" else buf)
    +:+ keyEscaped +:+ "=" +:+ QueryEscape value.

(** [v.Encode()] *)
Definition Values_Encode (v : Values) : string :=
  fold_left
    (fun buf k =>
       fold_left (encode_value (QueryEscape k)) (default [] (v !! k)) buf)
    (sorted_keys v) "".

(** ** The client *)

Definition Version : string := "1.0.0".
Definition UserAgent : string := "WooCommerce API Client-PHP/" +:+ Version.
Definition HashAlgorithm : string := "HMAC-SHA256".

(** [time.Time], as seconds since the Unix epoch and nanoseconds within
    the second.  The zero [Time] is January 1 of year 1, 00:00:00 UTC. *)
Record Time := { unix_sec : Z; nsec : Z }.

Definition IsZero (t : Time) : bool :=
  (unix_sec t =? -62135596800) && (nsec t =? 0).

(** [t.Unix()], an [int64].  The conversion [int(t.Unix())] of [oauth]
    keeps it: [int] has 64 bits on the platforms the client is built
    for. *)
Definition Unix (t : Time) : Z := unix_sec t.

(** Modelled from the spec: the [Option] struct is declared in a file of
    the package other than [client.go]; its fields are the ones the
    client reads, with the types the external-interfaces section gives. *)
Record Option := {
  API : bool;
  APIPrefix : string;
  OptVersion : string;
  VerifySSL : bool;
  OauthTimestamp : Time
}.

(** The fields of [url.URL] the client touches. *)
Record URL := {
  Scheme : string;
  Host : string;
  Path : string;
  RawQuery : string
}.

(** [http.Client]: only the transport's [InsecureSkipVerify] is set. *)
Record HTTPClient := { InsecureSkipVerify : bool }.

Record Client := {
  storeURL : URL;
  ck : string;
  cs : string;
  opt : Option;
  rawClient : HTTPClient
}.

(** [io.Reader] request bodies ([None] is [nil]) and [io.ReadCloser]
    response bodies, by their content. *)
Definition Reader := option string.
Definition ReadCloser := string.

Record Request := {
  Method : string;
  RequestURL : string;
  Header : gmap string (list string);
  Body : Reader
}.

Record Response := {
  StatusCode : Z;
  Status : string;
  RespBody : ReadCloser
}.

Inductive error :=
  | ErrMethod (method : string)
  | ErrStatus (status : string)
  | ErrLibrary (msg : string).

(** [err.Error()] *)
Definition Error (e : error) : string :=
  match e with
  | ErrMethod method => "Method is not recognised: " +:+ method
  | ErrStatus status => "Request failed: " +:+ status
  | ErrLibrary msg => msg
  end.

(** What a call to [request] does: it returns its pair of results, or it
    panics. *)
Inductive outcome :=
  | Returns (body : option ReadCloser) (err : option error)
  | Panics (msg : string).

(** ** The world a request runs in

    Maps are reference values in Go: a [url.Values] handed to the client
    is a pointer into the heap, and [Add] updates the caller's map.  The
    world holds that heap, the bytes the system entropy source still has
    to give, and the trace of what the client printed and sent. *)

Definition loc := nat.

Inductive event :=
  | EvPrintln (body : Reader)
  | EvDo (req : Request).

Record World := {
  heap : gmap loc Values;
  entropy : list Z;
  trace : list event
}.

Definition M (A : Type) : Type := World -> A * World.

Definition ret {A} (a : A) : M A := fun w => (a, w).

Definition bind {A B} (m : M A) (k : A -> M B) : M B :=
  fun w => let '(a, w') := m w in k a w'.

Notation "x <- m ;; k" := (bind m (fun x => k))
  (at level 100, m at next level, right associativity).

(** [make(url.Values)] *)
Definition new_Values : M loc :=
  fun w =>
    let l := fresh (dom (heap w)) in
    (l, {| heap := <[l := ∅]> (heap w);
           entropy := entropy w; trace := trace w |}).

Definition read_Values (l : loc) : M Values :=
  fun w => (default ∅ (heap w !! l), w).

Definition update_Values (l : loc) (f : Values -> Values) : M unit :=
  fun w =>
    (tt, {| heap := <[l := f (default ∅ (heap w !! l))]> (heap w);
            entropy := entropy w; trace := trace w |}).

Definition emit (e : event) : M unit :=
  fun w =>
    (tt, {| heap := heap w; entropy := entropy w;
            trace := trace w ++ [e] |}).

(** [rand.Read(b)] where it returns, as it does up to Go 1.23: it is
    [io.ReadFull] on the system source, which fills [b] with what the
    source gives and reports an error when that is short of [len(b)]:
    [EOF] when the source gave no byte, [unexpected EOF] when it gave
    some.  The result is the buffer after the call and the error.
    Since Go 1.24 a failed read does not return; [Go1_24.rand_Read]
    below is that behaviour. *)
Definition rand_Read (b : list Z) : M (list Z * option error) :=
  fun w =>
    let got := take (length b) (entropy w) in
    ((got ++ drop (length got) b,
      if (length got <? length b)%nat
      then Some (ErrLibrary (if (length got =? 0)%nat
                             then "EOF" else "unexpected EOF"))
      else None),
     {| heap := heap w; entropy := drop (length b) (entropy w);
        trace := trace w |}).

(** *** The signers *)

Definition basicAuth (c : Client) (params : option loc) : M string :=
  params <- match params with
            | None => new_Values
            | Some l => ret l
            end ;;
  _ <- update_Values params (Values_Add "consumer_key" (ck c)) ;;
  _ <- update_Values params (Values_Add "consumer_secret" (cs c)) ;;
  v <- read_Values params ;;
  ret (Values_Encode v).

(** Lines 108-111 of [oauthSign]. *)
Definition signingKey (c : Client) : string :=
  let signingKey := cs c in
  if negb (String.eqb (OptVersion (opt c)) "v1")
     || negb (String.eqb (OptVersion (opt c)) "v2")
  then signingKey +:+ "&"
  else signingKey.

(** The string [a] of [oauthSign]: the signature base string. *)
Definition baseString (method endpoint params : string) : string :=
  Join [method; QueryEscape endpoint; QueryEscape params] "&".

Definition oauthSign (c : Client) (method endpoint params : string) : string :=
  let a := baseString method endpoint params in
  let signatureBytes :=
    hmac_sha256 (bytes_of_string (signingKey c)) (bytes_of_string a) in
  EncodeToString signatureBytes.

(** Lines 93-102 of [oauth]: the sorted parameter string. *)
Definition paramString (params : Values) : string :=
  let keys := sorted_keys params in
  let paramStrs := map (fun key => key +:+ "=" +:+ Values_Get params key) keys in
  Join paramStrs "&".

Definition oauth (c : Client) (method urlStr : string) (params : option loc)
  : M string :=
  params <- match params with
            | None => new_Values
            | Some l => ret l
            end ;;
  _ <- update_Values params (Values_Add "oauth_consumer_key" (ck c)) ;;
  _ <- update_Values params
         (Values_Add "oauth_timestamp" (Itoa (Unix (OauthTimestamp (opt c))))) ;;
  r <- rand_Read (repeat 0 16) ;;
  let nonce := fst r in
  let sha1Nonce := hex_lower (SHA1.Sum nonce) in
  _ <- update_Values params (Values_Add "oauth_nonce" sha1Nonce) ;;
  _ <- update_Values params (Values_Add "oauth_signature_method" HashAlgorithm) ;;
  v <- read_Values params ;;
  let paramStr := paramString v in
  _ <- update_Values params
         (Values_Add "oauth_signature" (oauthSign c method urlStr paramStr)) ;;
  v <- read_Values params ;;
  ret (Values_Encode v).

(** *** The signer under Go 1.24 and later

    Since Go 1.24 [rand.Read] never returns an error: when the source
    fails, the runtime stops the process with a fatal error that no
    caller can recover from.  A run under that toolchain completes with
    a result and a world, or it aborts with the runtime's message. *)

Inductive run (A : Type) :=
  | Completes (a : A) (w : World)
  | Aborts (msg : string).

Arguments Completes {A} a w.
Arguments Aborts {A} msg.

Definition R (A : Type) : Type := World -> run A.

Definition completing {A} (m : M A) : R A :=
  fun w => let '(a, w') := m w in Completes a w'.

Definition bindR {A B} (m : R A) (k : A -> R B) : R B :=
  fun w =>
    match m w with
    | Completes a w' => k a w'
    | Aborts msg => Aborts msg
    end.

Notation "x <~ m ;; k" := (bindR m (fun x => k))
  (at level 100, m at next level, right associativity).

Module Go1_24.

(** [rand.Read(b)]: the read of [io.ReadFull], and [fatal] with the
    error's text when it failed; what returns is a full buffer and a
    nil error. *)
Definition rand_Read (b : list Z) : R (list Z * option error) :=
  fun w =>
    match rand_Read b w with
    | ((buf, None), w') => Completes (buf, None) w'
    | ((_, Some err), _) =>
        Aborts ("crypto/rand: failed to read random data (see https://go.dev/issue/66821): "
                +:+ Error err)
    end.

Definition oauth (c : Client) (method urlStr : string) (params : option loc)
  : R string :=
  params <~ completing (match params with
                        | None => new_Values
                        | Some l => ret l
                        end) ;;
  _ <~ completing
         (update_Values params (Values_Add "oauth_consumer_key" (ck c))) ;;
  _ <~ completing
         (update_Values params
            (Values_Add "oauth_timestamp"
               (Itoa (Unix (OauthTimestamp (opt c)))))) ;;
  r <~ rand_Read (repeat 0 16) ;;
  let nonce := fst r in
  let sha1Nonce := hex_lower (SHA1.Sum nonce) in
  _ <~ completing
         (update_Values params (Values_Add "oauth_nonce" sha1Nonce)) ;;
  _ <~ completing
         (update_Values params
            (Values_Add "oauth_signature_method" HashAlgorithm)) ;;
  v <~ completing (read_Values params) ;;
  let paramStr := paramString v in
  _ <~ completing
         (update_Values params
            (Values_Add "oauth_signature"
               (oauthSign c method urlStr paramStr))) ;;
  v <~ completing (read_Values params) ;;
  completing (ret (Values_Encode v)).

End Go1_24.

(** *** The request builder

    The standard library's URL printer and parser and the network are
    parameters of the builder. *)

Section RequestBuilder.

(** The [String] method of [url.URL] *)
Variable URL_String : URL -> string.

(** [url.Parse], which [NewClient] and [http.NewRequest] call: the
    parsed URL or the message of the parse error. *)
Variable url_Parse : string -> URL + string.

(** The network behind [http.Client.Do]: a response or the message of
    a transport error for every request. *)
Variable network : HTTPClient -> Request -> Response + string.

Definition NewClient (now : Time) (store ck cs : string)
    (option : option Option) : Client + error :=
  match url_Parse store with
  | inr err => inr (ErrLibrary err)
  | inl storeURL =>
      let option :=
        match option with
        | None => {| API := false; APIPrefix := ""; OptVersion := "";
                     VerifySSL := false;
                     OauthTimestamp := {| unix_sec := -62135596800;
                                          nsec := 0 |} |}
        | Some o => o
        end in
      let option :=
        if IsZero (OauthTimestamp option)
        then {| API := API option; APIPrefix := APIPrefix option;
                OptVersion := OptVersion option;
                VerifySSL := VerifySSL option; OauthTimestamp := now |}
        else option in
      let ver :=
        if negb (String.eqb (OptVersion option) "")
        then OptVersion option else "v3" in
      let path := if API option then APIPrefix option else "/wc-api/" in
      let path := path +:+ ver +:+ "/" in
      inl {| storeURL := {| Scheme := Scheme storeURL;
                            Host := Host storeURL; Path := path;
                            RawQuery := RawQuery storeURL |};
             ck := ck; cs := cs; opt := option;
             rawClient := {| InsecureSkipVerify :=
                               negb (VerifySSL option) |} |}
  end.

(** [http.NewRequest]: the methods that reach it are valid tokens, so
    it fails only when the URL does not parse. *)
Definition http_NewRequest (method urlstr : string) (body : Reader)
  : option Request * option error :=
  match url_Parse urlstr with
  | inr err => (None, Some (ErrLibrary err))
  | inl _ =>
      (Some {| Method := method; RequestURL := urlstr;
               Header := ∅; Body := body |}, None)
  end.

(** [req.Header.Set(key, value)] *)
Definition Header_Set (key value : string) (req : Request) : Request :=
  {| Method := Method req; RequestURL := RequestURL req;
     Header := <[key := [value]]> (Header req); Body := Body req |}.

(** [c.rawClient.Do(req)] *)
Definition Do (cl : HTTPClient) (req : Request) : M (Response + error) :=
  _ <- emit (EvDo req) ;;
  ret (match network cl req with
       | inl resp => inl resp
       | inr err => inr (ErrLibrary err)
       end).

(** The [switch method] of [request]. *)
Definition recognised (method : string) : bool :=
  String.eqb method "POST" || String.eqb method "PUT"
  || String.eqb method "DELETE" || String.eqb method "GET"
  || String.eqb method "OPTIONS".

(** Lines 121-128 of [request]: the URL with its query string. *)
Definition signed_url (c : Client) (method endpoint : string)
    (params : option loc) : M string :=
  let urlstr := URL_String (storeURL c) +:+ endpoint in
  if String.eqb (Scheme (storeURL c)) "https"
  then q <- basicAuth c params ;; ret (urlstr +:+ "?" +:+ q)
  else q <- oauth c method urlstr params ;; ret (urlstr +:+ "?" +:+ q).

Definition request (c : Client) (method endpoint : string)
    (params : option loc) (data : Reader) : M outcome :=
  let body := data in
  urlstr <- signed_url c method endpoint params ;;
  _ <- emit (EvPrintln body) ;;
  if recognised method then
    match http_NewRequest method urlstr body with
    | (None, _) =>
        (* [req] is nil and [req.Header.Set] dereferences it *)
        ret (Panics "invalid memory address or nil pointer dereference")
    | (Some req, err) =>
        let req := Header_Set "Content-Type" "application/json" req in
        match err with
        | Some err => ret (Returns None (Some err))
        | None =>
            r <- Do (rawClient c) req ;;
            match r with
            | inr err => ret (Returns None (Some err))
            | inl resp =>
                if negb (StatusCode resp =? 200)
                   && negb (StatusCode resp =? 201)
                then ret (Returns None (Some (ErrStatus (Status resp))))
                else ret (Returns (Some (RespBody resp)) None)
            end
        end
    end
  else ret (Returns None (Some (ErrMethod method))).

Definition Post (c : Client) (endpoint : string) (data : Reader)
  : M outcome :=
  request c "POST" endpoint None data.

Definition Put (c : Client) (endpoint : string) (data : Reader)
  : M outcome :=
  request c "PUT" endpoint None data.

Definition Get (c : Client) (endpoint : string) (params : option loc)
  : M outcome :=
  request c "GET" endpoint params None.

Definition Delete (c : Client) (endpoint : string) (params : option loc)
  : M outcome :=
  request c "POST" endpoint params None.

Definition Options (c : Client) (endpoint : string) : M outcome :=
  request c "OPTIONS" endpoint None None.

End RequestBuilder.

(** ** Views used in the statements *)

(** The key/value pairs of a mapping, in the order [Encode] writes them:
    keys ascending, the values of a key in their order. *)
Definition Values_pairs (v : Values) : list (string * string) :=
  sorted_keys v ≫= (fun k => pair k <$> default [] (v !! k)).

(** How [Encode] renders one pair. *)
Definition encode_pair (p : string * string) : string :=
  QueryEscape p.1 +:+ "=" +:+ QueryEscape p.2.

(** The map a signer works on and where it lives: the caller's map, or
    a fresh one when the caller passed [nil]. *)
Definition params_loc (params : option loc) (w : World) : loc :=
  match params with
  | Some l => l
  | None => fresh (dom (heap w))
  end.

Definition params_Values (params : option loc) (w : World) : Values :=
  match params with
  | Some l => default ∅ (heap w !! l)
  | None => ∅
  end.

(** What the caller holding map [l] sees in world [w]. *)
Definition caller_Values (l : loc) (w : World) : Values :=
  default ∅ (heap w !! l).

(** The nonce buffer as [rand.Read] leaves it in world [w], and whether
    the read failed. *)
Definition read_nonce (w : World) : list Z := (rand_Read (repeat 0 16) w).1.1.
Definition read_error (w : World) : option error :=
  (rand_Read (repeat 0 16) w).1.2.

(** The rendered [oauth_nonce] for a nonce buffer. *)
Definition nonce_digest (nonce : list Z) : string := hex_lower (SHA1.Sum nonce).

(** The mapping [basicAuth] encodes. *)
Definition basic_Values (c : Client) (v : Values) : Values :=
  Values_Add "consumer_secret" (cs c) (Values_Add "consumer_key" (ck c) v).

(** The mapping [oauth] holds when it computes the parameter string:
    the caller's entries and the four fields added on lines 86-92. *)
Definition oauth_fields (c : Client) (nonce : list Z) (v : Values) : Values :=
  Values_Add "oauth_signature_method" HashAlgorithm
    (Values_Add "oauth_nonce" (nonce_digest nonce)
       (Values_Add "oauth_timestamp" (Itoa (Unix (OauthTimestamp (opt c))))
          (Values_Add "oauth_consumer_key" (ck c) v))).

(** The value [oauth] adds under [oauth_signature], and the mapping it
    encodes. *)
Definition oauth_signature (c : Client) (method urlStr : string)
    (nonce : list Z) (v : Values) : string :=
  oauthSign c method urlStr (paramString (oauth_fields c nonce v)).

Definition oauth_Values (c : Client) (method urlStr : string)
    (nonce : list Z) (v : Values) : Values :=
  Values_Add "oauth_signature" (oauth_signature c method urlStr nonce v)
    (oauth_fields c nonce v).

(** [s] does not contain the character [a]. *)
Fixpoint avoids (a : ascii) (s : string) : Prop :=
  match s with
  | "" => True
  | String c rest => c ≠ a ∧ avoids a rest
  end.

(** Percent-decoding, the inverse of [QueryEscape] on its outputs: [+]
    is a space and [%XY] the byte with hexadecimal digits [X] and [Y]. *)
Definition unhex (c : ascii) : Z :=
  let n := byte_of_ascii c in
  if (48 <=? n) && (n <=? 57) then n - 48
  else if (65 <=? n) && (n <=? 70) then n - 55
  else 0.

Fixpoint QueryUnescape (s : string) : string :=
  match s with
  | "" => ""
  | String c rest =>
      if Ascii.eqb c "+" then String " " (QueryUnescape rest)
      else if Ascii.eqb c "%" then
        match rest with
        | String h (String l rest') =>
            String (ascii_of_byte (unhex h * 16 + unhex l))
              (QueryUnescape rest')
        | _ => String c (QueryUnescape rest)
        end
      else String c (QueryUnescape rest)
  end.

(** The first value of a key, when it has one: what [Get] reads. *)
Definition Values_first (v : Values) (k : string) : option string :=
  v !! k ≫= head.

(** The value last added under [oauth_signature]. *)
Definition signature_of (v : Values) : string :=
  default "" (last (default [] (v !! "oauth_signature"))).

(** The parameters of the golden vector. *)
Definition golden_params : Values :=
  list_to_map
    [ ("oauth_consumer_key", ["ck"]);
      ("oauth_timestamp", ["1000000000"]);
      ("oauth_nonce", ["abc123"]);
      ("oauth_signature_method", ["HMAC-SHA256"]) ].

Definition golden_url : string := "http://example.com/wc-api/v3/products".

(** Two runs of the signer for the golden URL whose clocks and entropy
    differ, on a caller mapping that already binds the OAuth keys. *)
Definition golden_client (timestamp : Z) : Client :=
  {| storeURL := {| Scheme := "http"; Host := "example.com";
                    Path := "/wc-api/v3/"; RawQuery := "" |};
     ck := "ck"; cs := "cs";
     opt := {| API := false; APIPrefix := ""; OptVersion := "v3";
               VerifySSL := true;
               OauthTimestamp := {| unix_sec := timestamp; nsec := 0 |} |};
     rawClient := {| InsecureSkipVerify := false |} |}.

Definition world_with (v : Values) (entropy : list Z) : World :=
  {| heap := {[ 0%nat := v ]}; entropy := entropy; trace := [] |}.

Definition run_A : string * World :=
  oauth (golden_client 1000000000) "GET" golden_url (Some 0%nat)
    (world_with golden_params (repeat 1 16)).

Definition run_B : string * World :=
  oauth (golden_client 1000000001) "GET" golden_url (Some 0%nat)
    (world_with golden_params (repeat 2 16)).

(** A caller mapping that binds one key to two values. *)
Definition multi_params : Values := {[ "filter" := ["a"; "b"] ]}.

(** The mapping [request] has signed when it builds the URL, and the
    request it hands to the network when the method is recognised and
    the URL parses. *)
Definition auth_Values (URL_String : URL -> string) (c : Client)
    (method endpoint : string) (params : option loc) (w : World) : Values :=
  if String.eqb (Scheme (storeURL c)) "https"
  then basic_Values c (params_Values params w)
  else oauth_Values c method (URL_String (storeURL c) +:+ endpoint)
         (read_nonce w) (params_Values params w).

Definition dispatched_request (URL_String : URL -> string) (c : Client)
    (method endpoint : string) (params : option loc) (data : Reader)
    (w : World) : Request :=
  {| Method := method;
     RequestURL := (signed_url URL_String c method endpoint params w).1;
     Header := {[ "Content-Type" := ["application/json"] ]};
     Body := data |}.

(** A world whose entropy source has nothing to give, and a store whose
    network answers every request with the same response. *)
Definition starved_world : World :=
  {| heap := ∅; entropy := []; trace := [] |}.

Definition plain_URL_String (u : URL) : string :=
  Scheme u +:+ "://" +:+ Host u +:+ Path u.

Definition lenient_Parse (s : string) : URL + string :=
  inl {| Scheme := ""; Host := ""; Path := s; RawQuery := "" |}.

Definition answering (resp : Response) (cl : HTTPClient) (req : Request)
  : Response + string :=
  inl resp.

Definition not_found : Response :=
  {| StatusCode := 404; Status := "404 Not Found"; RespBody := "{}" |}.

(** Base64 decoding of a padded string, the inverse of [EncodeToString]
    on its outputs. *)
Definition unb64 (c : ascii) : Z :=
  match String.index 0 (String c "") base64_alphabet with
  | Some i => Z.of_nat i
  | None => 0
  end.

Fixpoint DecodeString (s : string) : list Z :=
  match s with
  | String a (String b (String c (String d rest))) =>
      let x := Z.lor (Z.shiftl (unb64 a) 2) (Z.shiftr (unb64 b) 4) in
      let y := Z.lor (Z.shiftl (Z.land (unb64 b) 15) 4)
                 (Z.shiftr (unb64 c) 2) in
      let z := Z.lor (Z.shiftl (Z.land (unb64 c) 3) 6) (unb64 d) in
      if Ascii.eqb c "=" then [x]
      else if Ascii.eqb d "=" then [x; y]
      else x :: y :: z :: DecodeString rest
  | _ => []
  end.

Definition is_byte (x : Z) : Prop := 0 <= x < 256.

(** ** Reading a query string back

    [strings.Split(s, sep)] for a one-character separator, and the pairs
    [url.ParseQuery] reads from a query: the segments between [&], empty
    ones skipped, each cut at its first [=] and both halves unescaped. *)

Fixpoint Split (sep : ascii) (s : string) : list string :=
  match s with
  | "" => [""]
  | String c rest =>
      if Ascii.eqb c sep then "" :: Split sep rest
      else match Split sep rest with
           | field :: fields => String c field :: fields
           | [] => [String c ""]
           end
  end.

(** [strings.Cut(s, sep)]: the text before the first [sep] and the text
    after it, or all of [s] and nothing when [sep] does not occur. *)
Fixpoint Cut (sep : ascii) (s : string) : string * string :=
  match s with
  | "" => ("", "")
  | String c rest =>
      if Ascii.eqb c sep then ("", rest)
      else let '(before, after) := Cut sep rest in (String c before, after)
  end.

Definition query_pairs (query : string) : list (string * string) :=
  omap (fun segment =>
          if String.eqb segment "" then None
          else let '(key, value) := Cut "=" segment in
               Some (QueryUnescape key, QueryUnescape value))
       (Split "&" query).

(** The characters a query string may be made of: the unreserved ones,
    the two escapes and the two separators. *)
Definition query_char (c : ascii) : bool :=
  negb (shouldEscape c)
  || Ascii.eqb c "%" || Ascii.eqb c "+"
  || Ascii.eqb c "=" || Ascii.eqb c "&".

Fixpoint all_chars (P : ascii -> bool) (s : string) : bool :=
  match s with
  | "" => true
  | String c rest => P c && all_chars P rest
  end.

(** What [QueryEscape] writes: unreserved characters, [%] and [+]. *)
Definition escaped_char (c : ascii) : bool :=
  negb (shouldEscape c) || Ascii.eqb c "%" || Ascii.eqb c "+".

(** Sixteen bytes of entropy, for the examples. *)
Definition sixteen_bytes : list Z :=
  [1; 2; 3; 4; 5; 6; 7; 8; 9; 10; 11; 12; 13; 14; 15; 16].

(** The length of the base64 encoding of [n] bytes. *)
Fixpoint base64_length (n : nat) : nat :=
  match n with
  | O => O
  | S O | S (S O) => 4%nat
  | S (S (S n')) => (4 + base64_length n')%nat
  end.

(** The options [NewClient] works with: the caller's, or the zero
    [Option] when the caller passed nil. *)
Definition given_options (option : option Option) : Option :=
  default {| API := false; APIPrefix := ""; OptVersion := "";
             VerifySSL := false;
             OauthTimestamp := {| unix_sec := -62135596800; nsec := 0 |} |}
    option.

(** A parser that rejects every URL and a network that refuses every
    connection, for the examples. *)
Definition rejecting_Parse (s : string) : URL + string :=
  inr "invalid URL".

Definition refusing (cl : HTTPClient) (req : Request) : Response + string :=
  inr "connection refused".

(** The client [NewClient] makes from nil options at time [now], for a
    parser that keeps the whole store string as the path. *)
Definition nil_options_client (now : Time) : Client :=
  {| storeURL := {| Scheme := ""; Host := ""; Path := "/wc-api/v3/";
                    RawQuery := "" |};
     ck := "ck"; cs := "cs";
     opt := {| API := false; APIPrefix := ""; OptVersion := "";
               VerifySSL := false; OauthTimestamp := now |};
     rawClient := {| InsecureSkipVerify := true |} |}.

Definition construction_time : Time :=
  {| unix_sec := 1000000000; nsec := 0 |}.

(** A caller mapping that binds a key to an empty slice. *)
Definition empty_slice_params : Values := {[ "page" := [] ]}.

(** * Known answers for the library models *)

Example Sum256_abc :
  hex_lower (SHA256.Sum256 (bytes_of_string "abc"))
  = "ba7816bf8f01cfea414140de5dae2223b00361a396177a9cb410ff61f20015ad".
Proof. vm_compute. reflexivity. Qed.

Example Sum256_two_blocks :
  hex_lower
    (SHA256.Sum256
       (bytes_of_string
          "abcdbcdecdefdefgefghfghighijhijkijkljklmklmnlmnomnopnopq"))
  = "248d6a61d20638b8e5c026930c3e6039a33ce45964ff2167f6ecedd419db06c1".
Proof. vm_compute. reflexivity. Qed.

Example Sum_abc :
  hex_lower (SHA1.Sum (bytes_of_string "abc"))
  = "a9993e364706816aba3e25717850c26c9cd0d89d".
Proof. vm_compute. reflexivity. Qed.

Example hmac_sha256_rfc4231_case2 :
  hex_lower
    (hmac_sha256 (bytes_of_string "Jefe")
       (bytes_of_string "what do ya want for nothing?"))
  = "5bdcc146bf60754e6a042426089575c75a003f089d2739839dec58b964ec3843".
Proof. vm_compute. reflexivity. Qed.

Example hmac_sha256_long_key :
  hex_lower
    (hmac_sha256 (repeat 107 100) (bytes_of_string "long key"))
  = "5903eedefe0bba3f15b658715e41d71f1848739bddf19e497e968df5723dcd56".
Proof. vm_compute. reflexivity. Qed.

Example EncodeToString_rfc4648 :
  EncodeToString (bytes_of_string "foobar") = "Zm9vYmFy"
  ∧ EncodeToString (bytes_of_string "fooba") = "Zm9vYmE="
  ∧ EncodeToString (bytes_of_string "foob") = "Zm9vYg==".
Proof. by vm_compute. Qed.

Example QueryEscape_reserved :
  QueryEscape "a b&c=d/e~f" = "a+b%26c%3Dd%2Fe~f".
Proof. reflexivity. Qed.

Example Itoa_signs : Itoa 1000000000 = "1000000000" ∧ Itoa (-42) = "-42".
Proof. by vm_compute. Qed.

(** * Facts about the library models *)

(** ** Strings *)

Lemma append_String (c : ascii) (s1 s2 : string) :
  String c s1 +:+ s2 = String c (s1 +:+ s2).
Proof. reflexivity. Qed.

Lemma append_nil_l (s : string) : "" +:+ s = s.
Proof. reflexivity. Qed.

Lemma append_nil_r (s : string) : s +:+ "" = s.
Proof.
  induction s as [|c s IH]; [done|]. by rewrite append_String, IH.
Qed.

Lemma append_assoc (s1 s2 s3 : string) :
  (s1 +:+ s2) +:+ s3 = s1 +:+ s2 +:+ s3.
Proof.
  induction s1 as [|c s1 IH]; [done|]. by rewrite !append_String, IH.
Qed.

Lemma append_length (s1 s2 : string) :
  String.length (s1 +:+ s2) = (String.length s1 + String.length s2)%nat.
Proof.
  induction s1 as [|c s1 IH]; [done|]. rewrite append_String. simpl. lia.
Qed.

(** [Join] puts a separator in front of every element but the first. *)
Lemma Join_cons (e : string) (rest : list string) (sep : string) :
  Join (e :: rest) sep =
  e +:+ match rest with [] => "" | _ => sep +:+ Join rest sep end.
Proof. destruct rest; [symmetry; apply append_nil_r | done]. Qed.

(** ** url.Values *)

Section ValuesFacts.
Implicit Types (v : Values) (k key x : string).

Lemma sorted_keys_Sorted v : Sorted String.le (sorted_keys v).
Proof. apply (Sorted_merge_sort _). Qed.

Lemma sorted_keys_Permutation v : sorted_keys v ≡ₚ (map_to_list v).*1.
Proof. apply merge_sort_Permutation. Qed.

Lemma sorted_keys_NoDup v : NoDup (sorted_keys v).
Proof.
  rewrite sorted_keys_Permutation. apply NoDup_fst_map_to_list.
Qed.

Lemma elem_of_sorted_keys v k : k ∈ sorted_keys v ↔ k ∈ dom v.
Proof.
  rewrite sorted_keys_Permutation, elem_of_dom, list_elem_of_fmap.
  split.
  - intros [[k' xs] [-> Hin]]. apply elem_of_map_to_list in Hin. eauto.
  - intros [xs Hxs]. exists (k, xs). split; [done|].
    by apply elem_of_map_to_list.
Qed.

(** The sorted key list is a function of the key set alone. *)
Lemma sorted_keys_dom v1 v2 : dom v1 = dom v2 → sorted_keys v1 = sorted_keys v2.
Proof.
  intros Hdom. apply (Sorted_unique String.le); try apply sorted_keys_Sorted.
  apply NoDup_Permutation; try apply sorted_keys_NoDup.
  intros k. by rewrite !elem_of_sorted_keys, Hdom.
Qed.

Lemma lookup_Values_Add v key x k :
  Values_Add key x v !! k =
  if decide (key = k) then Some (default [] (v !! key) ++ [x]) else v !! k.
Proof. unfold Values_Add. apply lookup_insert. Qed.

Lemma dom_Values_Add v key x : dom (Values_Add key x v) = {[key]} ∪ dom v.
Proof. unfold Values_Add. apply dom_insert_L. Qed.

(** [Get] after [Add]: a value already bound keeps the first place. *)
Lemma Values_Get_Add v key x k :
  Values_Get (Values_Add key x v) k =
  if decide (key = k)
  then match v !! key with Some (y :: _) => y | _ => x end
  else Values_Get v k.
Proof.
  unfold Values_Get. rewrite lookup_Values_Add.
  case_decide; [|done]. by destruct (v !! key) as [[|y ys]|].
Qed.

Lemma Values_Get_Add_ne v key x k :
  key ≠ k → Values_Get (Values_Add key x v) k = Values_Get v k.
Proof. intros. rewrite Values_Get_Add. by case_decide. Qed.

End ValuesFacts.

(** ** Encode writes the pairs, joined by [&] *)

Section EncodeFacts.
Implicit Types (v : Values) (k key x buf s : string) (l : list string).

(** The string builder of [Encode]: append [s], after a [&] when the
    buffer is not empty. *)
Let write buf s : string :=
  (if (0 <? String.length buf)%nat then buf +:+ "&" else buf) +:+ s.

Let tail_of l : string := foldr (fun s acc => "&" +:+ s +:+ acc) "" l.

Local Lemma Join_tail s l : Join (s :: l) "&" = s +:+ tail_of l.
Proof.
  revert s. induction l as [|s' l IH]; intros s.
  - symmetry. apply append_nil_r.
  - rewrite Join_cons, IH. done.
Qed.

Local Lemma write_nonempty buf s :
  buf ≠ "" → write buf s = buf +:+ "&" +:+ s.
Proof.
  intros Hbuf. unfold write. destruct buf as [|c buf]; [done|].
  simpl. by rewrite append_assoc.
Qed.

Local Lemma fold_write_nonempty buf l :
  buf ≠ "" → fold_left write l buf = buf +:+ tail_of l.
Proof.
  revert buf. induction l as [|s l IH]; intros buf Hbuf; simpl.
  - symmetry. apply append_nil_r.
  - rewrite IH, write_nonempty, !append_assoc by
      (try rewrite write_nonempty by done; by destruct buf).
    done.
Qed.

Local Lemma fold_write_Join l :
  Forall (fun s => s ≠ "") l → fold_left write l "" = Join l "&".
Proof.
  destruct 1 as [|s l Hs Hl]; [done|]. cbn [fold_left].
  change (write "" s) with s.
  by rewrite fold_write_nonempty, Join_tail.
Qed.

Local Lemma fold_encode_value k xs buf :
  fold_left (encode_value (QueryEscape k)) xs buf =
  fold_left write (encode_pair <$> (pair k <$> xs)) buf.
Proof.
  revert buf. induction xs as [|x xs IH]; intros buf; [done|].
  simpl. by rewrite IH.
Qed.

Local Lemma fold_keys v ks buf :
  fold_left
    (fun buf k =>
       fold_left (encode_value (QueryEscape k)) (default [] (v !! k)) buf)
    ks buf =
  fold_left write
    (encode_pair <$> (ks ≫= fun k => pair k <$> default [] (v !! k))) buf.
Proof.
  revert buf. induction ks as [|k ks IH]; intros buf; [done|].
  cbn [fold_left]. rewrite IH, fold_encode_value.
  rewrite bind_cons, fmap_app. by rewrite fold_left_app.
Qed.

Lemma encode_pair_nonempty (p : string * string) : encode_pair p ≠ "".
Proof.
  unfold encode_pair. intros H%(f_equal String.length).
  rewrite append_length in H. simpl in H. lia.
Qed.

Lemma Values_Encode_pairs v :
  Values_Encode v = Join (encode_pair <$> Values_pairs v) "&".
Proof.
  unfold Values_Encode, Values_pairs. rewrite fold_keys.
  apply fold_write_Join, Forall_fmap, Forall_forall.
  intros p _. apply encode_pair_nonempty.
Qed.

End EncodeFacts.

(** ** The pairs of a mapping *)

Section PairsFacts.
Implicit Types (v : Values) (k key x : string).

Lemma elem_of_Values_pairs v k x :
  (k, x) ∈ Values_pairs v ↔ ∃ xs, v !! k = Some xs ∧ x ∈ xs.
Proof.
  unfold Values_pairs. rewrite list_elem_of_bind. split.
  - intros (k' & Hin & Hk'). apply list_elem_of_fmap in Hin as (x' & [= <- <-] & Hx).
    destruct (v !! k) as [xs|] eqn:Hv; [eauto|]. by apply elem_of_nil in Hx.
  - intros (xs & Hv & Hx). exists k. split.
    + rewrite Hv. simpl. by apply list_elem_of_fmap_2.
    + apply elem_of_sorted_keys, elem_of_dom. eauto.
Qed.

(** The same pairs, listed in the map's own order. *)
Local Lemma Values_pairs_map_to_list v :
  Values_pairs v ≡ₚ map_to_list v ≫= (fun kxs => pair kxs.1 <$> kxs.2).
Proof.
  unfold Values_pairs. rewrite sorted_keys_Permutation.
  assert (Hl : Forall (fun kxs => v !! kxs.1 = Some kxs.2) (map_to_list v)).
  { apply Forall_forall. intros [k xs] Hin. by apply elem_of_map_to_list. }
  induction Hl as [|[k xs] l Hk _ IH]; [done|].
  rewrite fmap_cons, !bind_cons. simpl in *. by rewrite Hk, IH.
Qed.

(** [Add] extends the pairs by the one it is given: nothing is dropped
    and nothing else is added. *)
Lemma Values_pairs_Add v key x :
  Values_pairs (Values_Add key x v) ≡ₚ Values_pairs v ++ [(key, x)].
Proof.
  rewrite !Values_pairs_map_to_list. unfold Values_Add.
  destruct (v !! key) as [xs|] eqn:Hv; simpl.
  - rewrite <-(insert_delete_eq v key (xs ++ [x])).
    rewrite <-(insert_delete_id v key xs) at 2 by done.
    rewrite !map_to_list_insert by apply lookup_delete_eq.
    rewrite !bind_cons. simpl. rewrite fmap_app. simpl.
    rewrite <-!app_assoc. f_equiv. apply Permutation_app_comm.
  - rewrite map_to_list_insert by done. rewrite bind_cons. simpl.
    apply Permutation_cons_append.
Qed.

End PairsFacts.

(** * The signers, run *)

Section SignerRuns.
Implicit Types (c : Client) (w : World) (params : option loc).

(** [basicAuth] encodes the caller's entries and the two credentials,
    and leaves that mapping in the heap. *)
Lemma basicAuth_run c params w :
  basicAuth c params w =
  (Values_Encode (basic_Values c (params_Values params w)),
   {| heap := <[params_loc params w :=
                  basic_Values c (params_Values params w)]> (heap w);
      entropy := entropy w; trace := trace w |}).
Proof.
  unfold basicAuth, bind, new_Values, ret, update_Values, read_Values,
    basic_Values.
  destruct params as [l|]; cbn [heap entropy trace params_loc params_Values];
    rewrite ?lookup_insert_eq, ?insert_insert_eq; reflexivity.
Qed.

Lemma oauth_run c method urlStr params w :
  oauth c method urlStr params w =
  (Values_Encode
     (oauth_Values c method urlStr (read_nonce w) (params_Values params w)),
   {| heap := <[params_loc params w :=
                  oauth_Values c method urlStr (read_nonce w)
                    (params_Values params w)]> (heap w);
      entropy := drop 16 (entropy w); trace := trace w |}).
Proof.
  unfold oauth, bind, new_Values, ret, update_Values, read_Values,
    oauth_Values, oauth_signature, oauth_fields, nonce_digest, read_nonce,
    rand_Read.
  destruct params as [l|];
    cbn [heap entropy trace params_loc params_Values fst snd];
    rewrite ?lookup_insert_eq, ?insert_insert_eq; reflexivity.
Qed.

End SignerRuns.

(** ** Escaping, digits and decimal numbers *)

Lemma QueryUnescape_escape_char (c : ascii) (s : string) :
  QueryUnescape (escape_char c +:+ s) = String c (QueryUnescape s).
Proof. destruct c as [[] [] [] [] [] [] [] []]; reflexivity. Qed.

(** Percent-decoding recovers what [QueryEscape] was given. *)
Lemma QueryUnescape_QueryEscape (s : string) :
  QueryUnescape (QueryEscape s) = s.
Proof.
  induction s as [|c s IH]; [done|].
  cbn [QueryEscape]. by rewrite QueryUnescape_escape_char, IH.
Qed.

Lemma QueryEscape_inj (s1 s2 : string) :
  QueryEscape s1 = QueryEscape s2 → s1 = s2.
Proof.
  intros H%(f_equal QueryUnescape). by rewrite !QueryUnescape_QueryEscape in H.
Qed.

Lemma avoids_app (a : ascii) (s1 s2 : string) :
  avoids a s1 → avoids a s2 → avoids a (s1 +:+ s2).
Proof.
  induction s1 as [|c s1 IH]; [done|].
  intros [Hc Hs1] Hs2. rewrite append_String. split; auto.
Qed.

Lemma digit_of_cases (alphabet : string) (i : Z) :
  digit_of alphabet i = "?"%char
  ∨ In (digit_of alphabet i) (list_ascii_of_string alphabet).
Proof.
  unfold digit_of. generalize (Z.to_nat i) as n.
  induction alphabet as [|c s IH]; intros n; [by left|].
  destruct n as [|n]; simpl; [by right; left|].
  destruct (IH n) as [H|H]; [by left | by right; right].
Qed.

Lemma hex_digit_not_amp (i : Z) :
  digit_of "0123456789abcdef" i ≠ "&"%char.
Proof.
  destruct (digit_of_cases "0123456789abcdef" i) as [->|H]; [done|].
  simpl in H. intuition (subst; try discriminate; try congruence).
Qed.

Lemma hex_lower_avoids_amp (b : list Z) : avoids "&" (hex_lower b).
Proof.
  induction b as [|x b IH]; [done|].
  cbn [hex_lower avoids]. auto using hex_digit_not_amp.
Qed.

Lemma string_of_uint_avoids_amp (d : Decimal.uint) :
  avoids "&" (NilEmpty.string_of_uint d).
Proof. induction d; simpl; auto; split; auto; discriminate. Qed.

Lemma Itoa_avoids_amp (i : Z) : avoids "&" (Itoa i).
Proof.
  unfold Itoa, NilZero.string_of_int, NilZero.string_of_uint.
  destruct (Z.to_int i) as [d|d]; destruct d;
    repeat (split; try discriminate);
    apply (string_of_uint_avoids_amp (_ _))
    || apply string_of_uint_avoids_amp || exact I.
Qed.

Lemma Itoa_inj (i j : Z) : Itoa i = Itoa j → i = j.
Proof.
  assert (Hnn : ∀ z, Z.to_int z ≠ Decimal.Pos Decimal.Nil
                     ∧ Z.to_int z ≠ Decimal.Neg Decimal.Nil).
  { intros [|p|p]; simpl; split; try discriminate;
      intros [= H]; by apply DecimalPos.Unsigned.to_uint_nonnil in H. }
  unfold Itoa. intros H%(f_equal NilZero.int_of_string).
  rewrite !NilZero.isi in H by apply Hnn.
  apply DecimalZ.to_int_inj. congruence.
Qed.

(** Two strings free of [&], each followed by nothing or by a [&], are
    equal when the whole strings are. *)
Lemma amp_split_unique (a b r1 r2 : string) :
  avoids "&" a → avoids "&" b →
  (r1 = "" ∨ ∃ r, r1 = String "&" r) →
  (r2 = "" ∨ ∃ r, r2 = String "&" r) →
  a +:+ r1 = b +:+ r2 → a = b.
Proof.
  revert b. induction a as [|c a IH]; intros [|c' b] Ha Hb Hr1 Hr2 Heq.
  - done.
  - rewrite append_nil_l, append_String in Heq. destruct Hb as [Hc' _].
    destruct Hr1 as [->|[r ->]]; [done|]. by injection Heq as <- _.
  - rewrite append_nil_l, append_String in Heq. destruct Ha as [Hc _].
    destruct Hr2 as [->|[r ->]]; [done|]. by injection Heq as -> _.
  - rewrite !append_String in Heq. injection Heq as -> Heq.
    destruct Ha as [_ Ha], Hb as [_ Hb]. f_equal. eauto.
Qed.

(** [Join] over rendered [key=value] pairs determines the values, as
    long as the values that change contain no [&]. *)
Lemma Join_rendered_inj (keys : list string) (g1 g2 : string → string) :
  (∀ k, k ∈ keys → g1 k ≠ g2 k → avoids "&" (g1 k) ∧ avoids "&" (g2 k)) →
  Join ((fun k => k +:+ "=" +:+ g1 k) <$> keys) "&" =
  Join ((fun k => k +:+ "=" +:+ g2 k) <$> keys) "&" →
  ∀ k, k ∈ keys → g1 k = g2 k.
Proof.
  induction keys as [|k0 keys IH]; intros Hfree Heq k Hk.
  { by apply elem_of_nil in Hk. }
  rewrite !fmap_cons, !Join_cons, !append_assoc in Heq.
  do 2 apply String.app_inj in Heq.
  assert (Hk0 : g1 k0 = g2 k0).
  { destruct (decide (g1 k0 = g2 k0)) as [|Hne]; [done|].
    destruct (Hfree k0) as [H1 H2]; [left | done |].
    eapply amp_split_unique; [exact H1 | exact H2 | | | exact Heq];
      destruct keys; eauto. }
  rewrite Hk0 in Heq. apply String.app_inj in Heq.
  apply elem_of_cons in Hk as [->|Hk]; [done|].
  apply IH; [| |done].
  - intros k' Hk'. apply Hfree. by right.
  - destruct keys as [|k1 keys]; [done|].
    rewrite !fmap_cons in Heq |- *. by apply String.app_inj in Heq.
Qed.

(** * The OAuth 1.0a signer *)

Section Signing.
Implicit Types (c : Client) (w : World) (params : option loc) (v : Values).

(** The condition on line 109 holds for every version string. *)
Lemma version_condition (version : string) :
  negb (String.eqb version "v1") || negb (String.eqb version "v2") = true.
Proof.
  destruct (String.eqb_spec version "v1") as [Hv1|]; [|done].
  by subst version.
Qed.

Lemma signingKey_amp c : signingKey c = cs c +:+ "&".
Proof. unfold signingKey. by rewrite version_condition. Qed.

Lemma oauthSign_unfold c method endpoint paramStr :
  oauthSign c method endpoint paramStr =
  EncodeToString
    (hmac_sha256 (bytes_of_string (cs c +:+ "&"))
       (bytes_of_string
          (method +:+ "&" +:+ QueryEscape endpoint +:+ "&"
             +:+ QueryEscape paramStr))).
Proof. unfold oauthSign. by rewrite signingKey_amp. Qed.

Lemma dom_oauth_fields c nonce v :
  dom (oauth_fields c nonce v) =
  {["oauth_signature_method"; "oauth_nonce"; "oauth_timestamp";
    "oauth_consumer_key"]} ∪ dom v.
Proof. unfold oauth_fields. rewrite !dom_Values_Add. set_solver. Qed.

End Signing.

(** C2: whatever version the options carry, "v1" and "v2" included, the
    HMAC key of [oauthSign] is the consumer secret followed by one [&]:
    the condition guarding the suffix is always true, so the branch that
    leaves the key bare is never taken. *)
Theorem signing_key_always_has_amp (c : Client) :
  (negb (String.eqb (OptVersion (opt c)) "v1")
   || negb (String.eqb (OptVersion (opt c)) "v2")) = true
  ∧ signingKey c = cs c +:+ "&"
  ∧ ∀ method endpoint paramStr,
      oauthSign c method endpoint paramStr =
      EncodeToString
        (hmac_sha256 (bytes_of_string (cs c +:+ "&"))
           (bytes_of_string (baseString method endpoint paramStr))).
Proof.
  split; [apply version_condition|]. split; [apply signingKey_amp|].
  intros. unfold oauthSign. by rewrite signingKey_amp.
Qed.

(** C1: in OAuth1 mode the keys of the caller and the four added ones are
    sorted and rendered [key=value] with raw values, joined by [&]; the
    base string is the method, the escaped URL and the escaped parameter
    string joined by [&]; [oauth_signature] is the base64 of the
    HMAC-SHA256 of the base string under the secret followed by [&]; the
    output encodes the mapping with that signature added.  On the golden
    vector the parameter string and the signature are the expected ones. *)
Theorem oauth_signed_output (c : Client) (method urlStr : string)
    (params : option loc) (w : World) :
  (let v := params_Values params w in
   let added :=
     [ ("oauth_consumer_key", ck c);
       ("oauth_timestamp", Itoa (Unix (OauthTimestamp (opt c))));
       ("oauth_nonce", nonce_digest (read_nonce w));
       ("oauth_signature_method", "HMAC-SHA256") ] in
   let fields := foldl (fun v p => Values_Add p.1 p.2 v) v added in
   ∃ keys paramStr baseStr signature : _,
     Sorted String.le keys ∧ NoDup keys
     ∧ (∀ k, k ∈ keys ↔ k ∈ dom v ∨ k ∈ added.*1)
     ∧ paramStr =
         Join ((fun k => k +:+ "=" +:+ Values_Get fields k) <$> keys) "&"
     ∧ baseStr =
         method +:+ "&" +:+ QueryEscape urlStr +:+ "&"
           +:+ QueryEscape paramStr
     ∧ signature =
         EncodeToString
           (hmac_sha256 (bytes_of_string (cs c +:+ "&"))
              (bytes_of_string baseStr))
     ∧ (oauth c method urlStr params w).1 =
         Values_Encode (Values_Add "oauth_signature" signature fields))
  ∧ paramString golden_params =
      "oauth_consumer_key=ck&oauth_nonce=abc123&oauth_signature_method=HMAC-SHA256&oauth_timestamp=1000000000"
  ∧ ∀ u k o r,
      let c := {| storeURL := u; ck := k; cs := "cs"; opt := o;
                  rawClient := r |} in
      oauthSign c "GET" golden_url (paramString golden_params) =
      EncodeToString
        (hmac_sha256 (bytes_of_string "cs&")
           (bytes_of_string
              "GET&http%3A%2F%2Fexample.com%2Fwc-api%2Fv3%2Fproducts&oauth_consumer_key%3Dck%26oauth_nonce%3Dabc123%26oauth_signature_method%3DHMAC-SHA256%26oauth_timestamp%3D1000000000"))
      ∧ oauthSign c "GET" golden_url (paramString golden_params) =
        "bHWYNlH/EnFg3P5zc/obiKcUdO0MNaxLGKCSAYmM4gA=".
Proof.
  split; [|split].
  - cbn zeta. cbn [foldl fst snd].
    change (Values_Add "oauth_signature_method" "HMAC-SHA256"
              (Values_Add "oauth_nonce" (nonce_digest (read_nonce w))
                 (Values_Add "oauth_timestamp"
                    (Itoa (Unix (OauthTimestamp (opt c))))
                    (Values_Add "oauth_consumer_key" (ck c)
                       (params_Values params w)))))
      with (oauth_fields c (read_nonce w) (params_Values params w)).
    set (fields := oauth_fields c (read_nonce w) (params_Values params w)).
    exists (sorted_keys fields), (paramString fields).
    eexists _, _. split; [apply sorted_keys_Sorted|].
    split; [apply sorted_keys_NoDup|]. split.
    { intros k. rewrite elem_of_sorted_keys. unfold fields.
      rewrite dom_oauth_fields. set_solver. }
    split; [done|]. split; [done|]. split; [done|].
    rewrite oauth_run. cbn [fst]. unfold oauth_Values, oauth_signature.
    by rewrite oauthSign_unfold.
  - by vm_compute.
  - intros u k o r c'. rewrite oauthSign_unfold. subst c'. cbn [cs].
    split; by vm_compute.
Qed.

(** ** What the signature depends on *)

Section SignatureDependence.
Implicit Types (c : Client) (v : Values) (k key x : string).

Lemma Values_Get_first v k :
  Values_Get v k = default "" (Values_first v k).
Proof.
  unfold Values_Get, Values_first. by destruct (v !! k) as [[|y ys]|].
Qed.

Lemma Values_first_Add v key x k :
  Values_first (Values_Add key x v) k =
  if decide (key = k) then Some (default x (Values_first v key))
  else Values_first v k.
Proof.
  unfold Values_first. rewrite lookup_Values_Add.
  case_decide; [|done]. by destruct (v !! key) as [[|y ys]|].
Qed.

(** The parameter string reads a mapping through its keys and the
    first value of each. *)
Lemma paramString_ext v1 v2 :
  dom v1 = dom v2 → (∀ k, Values_first v1 k = Values_first v2 k) →
  paramString v1 = paramString v2.
Proof.
  intros Hdom Hfirst. unfold paramString.
  rewrite (sorted_keys_dom v1 v2 Hdom). f_equal.
  apply list_fmap_ext. intros _ k _. by rewrite !Values_Get_first, Hfirst.
Qed.

Lemma Values_Add_ext v1 v2 key x :
  dom v1 = dom v2 → (∀ k, Values_first v1 k = Values_first v2 k) →
  dom (Values_Add key x v1) = dom (Values_Add key x v2)
  ∧ ∀ k, Values_first (Values_Add key x v1) k
         = Values_first (Values_Add key x v2) k.
Proof.
  intros Hdom Hfirst. split; [by rewrite !dom_Values_Add, Hdom|].
  intros k. rewrite !Values_first_Add. case_decide; by rewrite ?Hfirst.
Qed.

Lemma oauth_signature_ext c method urlStr nonce v1 v2 :
  dom v1 = dom v2 → (∀ k, Values_first v1 k = Values_first v2 k) →
  oauth_signature c method urlStr nonce v1
  = oauth_signature c method urlStr nonce v2.
Proof.
  intros Hdom Hfirst. unfold oauth_signature. f_equal.
  unfold oauth_fields. apply paramString_ext;
    repeat (apply Values_Add_ext; try done).
Qed.

(** The value signed for a key the caller did not bind is the one the
    signer adds. *)
Lemma Values_Get_oauth_nonce c nonce v :
  v !! "oauth_nonce" = None →
  Values_Get (oauth_fields c nonce v) "oauth_nonce" = nonce_digest nonce.
Proof.
  intros Hv. unfold oauth_fields.
  rewrite Values_Get_Add_ne, Values_Get_Add by done.
  rewrite decide_True by done.
  by rewrite !lookup_Values_Add, !decide_False, Hv by done.
Qed.

Lemma Values_Get_oauth_timestamp c nonce v :
  v !! "oauth_timestamp" = None →
  Values_Get (oauth_fields c nonce v) "oauth_timestamp"
  = Itoa (Unix (OauthTimestamp (opt c))).
Proof.
  intros Hv. unfold oauth_fields.
  rewrite !Values_Get_Add_ne, Values_Get_Add by done.
  rewrite decide_True by done.
  by rewrite !lookup_Values_Add, !decide_False, Hv by done.
Qed.

(** The other keys are signed with values that do not depend on the
    nonce or on the clock. *)
Lemma Values_Get_oauth_fields_other c1 c2 nonce1 nonce2 v k :
  ck c1 = ck c2 → k ≠ "oauth_nonce" → k ≠ "oauth_timestamp" →
  Values_Get (oauth_fields c1 nonce1 v) k
  = Values_Get (oauth_fields c2 nonce2 v) k.
Proof.
  intros Hck Hn Ht. unfold oauth_fields.
  rewrite !Values_Get_Add, !lookup_Values_Add, Hck.
  repeat (case_decide; simplify_eq; try done).
Qed.

Lemma baseString_inj method urlStr p1 p2 :
  baseString method urlStr p1 = baseString method urlStr p2 → p1 = p2.
Proof.
  unfold baseString. cbn [Join].
  intros H. do 4 apply String.app_inj in H. by apply QueryEscape_inj.
Qed.

End SignatureDependence.

Section SignatureCoverage.
Implicit Types (c : Client) (v : Values) (k key x : string).

Lemma Values_first_Add_Some v key x k y :
  Values_first v k = Some y → Values_first (Values_Add key x v) k = Some y.
Proof.
  intros Hy. rewrite Values_first_Add. case_decide; [|done].
  subst. by rewrite Hy.
Qed.

Lemma Values_Add_keeps v key x k (l : list string) y :
  v !! k = Some l → y ∈ l →
  ∃ l', Values_Add key x v !! k = Some l' ∧ y ∈ l'.
Proof.
  intros Hl Hy. rewrite lookup_Values_Add. case_decide; [|eauto].
  subst. rewrite Hl. eexists. split; [done|]. set_solver.
Qed.

Lemma Values_first_insert_same v k x xs xs' k' :
  v !! k = Some (x :: xs) →
  Values_first (<[k := x :: xs']> v) k' = Values_first v k'.
Proof.
  intros Hk. unfold Values_first. rewrite lookup_insert.
  case_decide; [|done]. subst. by rewrite Hk.
Qed.

(** The value [oauth] leaves last under [oauth_signature]. *)
Lemma signature_of_oauth_Values c method urlStr nonce v :
  signature_of (oauth_Values c method urlStr nonce v)
  = oauth_signature c method urlStr nonce v.
Proof.
  unfold signature_of, oauth_Values. rewrite lookup_Values_Add.
  rewrite decide_True by done. cbn [from_option id]. by rewrite last_snoc.
Qed.

Lemma caller_Values_oauth c method urlStr params w :
  caller_Values (params_loc params w) (oauth c method urlStr params w).2
  = oauth_Values c method urlStr (read_nonce w) (params_Values params w).
Proof.
  rewrite oauth_run. unfold caller_Values. cbn [snd heap].
  by rewrite lookup_insert_eq.
Qed.

End SignatureCoverage.

(** ** Base64 is injective on bytes *)

Lemma range_check (n : nat) (P : Z → bool) :
  forallb (fun i => P (Z.of_nat i)) (seq 0 n) = true →
  ∀ x, 0 <= x < Z.of_nat n → P x = true.
Proof.
  intros H x [Hlo Hhi]. rewrite forallb_forall in H.
  specialize (H (Z.to_nat x)). rewrite Z2Nat.id in H by lia.
  apply H, in_seq. lia.
Qed.

Lemma range_check2 (n m : nat) (P : Z → Z → bool) :
  forallb (fun i => forallb (fun j => P (Z.of_nat i) (Z.of_nat j))
                      (seq 0 m)) (seq 0 n) = true →
  ∀ x y, 0 <= x < Z.of_nat n → 0 <= y < Z.of_nat m → P x y = true.
Proof.
  intros H x y Hx Hy.
  apply (range_check n (fun x => P x y)); [|done].
  rewrite forallb_forall in H |- *. intros i Hi.
  specialize (H i Hi). cbv beta in H.
  by apply (range_check m (fun y => P (Z.of_nat i) y)).
Qed.

Lemma b64_not_pad (i : Z) : Ascii.eqb (b64 i) "=" = false.
Proof.
  apply Ascii.eqb_neq. unfold b64.
  destruct (digit_of_cases base64_alphabet i) as [->|H]; [done|].
  simpl in H. intuition (subst; try discriminate; try congruence).
Qed.

Lemma unb64_b64 (s : Z) : 0 <= s < 64 → unb64 (b64 s) = s.
Proof.
  intros Hs. apply Z.eqb_eq. revert s Hs.
  apply (range_check 64 (fun s => unb64 (b64 s) =? s)).
  vm_compute. reflexivity.
Qed.

(** A byte splits into a sextet and two bits, two nibbles, or two bits
    and a sextet. *)
Lemma split_6_2 (x : Z) :
  is_byte x →
  0 <= Z.shiftr x 2 < 64 ∧ 0 <= Z.land x 3 < 4
  ∧ Z.lor (Z.shiftl (Z.shiftr x 2) 2) (Z.land x 3) = x.
Proof.
  intros Hx.
  pose proof (range_check 256
    (fun x => (0 <=? Z.shiftr x 2) && (Z.shiftr x 2 <? 64)
              && (0 <=? Z.land x 3) && (Z.land x 3 <? 4)
              && (Z.lor (Z.shiftl (Z.shiftr x 2) 2) (Z.land x 3) =? x))
    eq_refl x Hx) as H.
  cbv beta in H. rewrite !andb_true_iff in H. lia.
Qed.

Lemma split_4_4 (y : Z) :
  is_byte y →
  0 <= Z.shiftr y 4 < 16 ∧ 0 <= Z.land y 15 < 16
  ∧ Z.lor (Z.shiftl (Z.shiftr y 4) 4) (Z.land y 15) = y.
Proof.
  intros Hy.
  pose proof (range_check 256
    (fun y => (0 <=? Z.shiftr y 4) && (Z.shiftr y 4 <? 16)
              && (0 <=? Z.land y 15) && (Z.land y 15 <? 16)
              && (Z.lor (Z.shiftl (Z.shiftr y 4) 4) (Z.land y 15) =? y))
    eq_refl y Hy) as H.
  cbv beta in H. rewrite !andb_true_iff in H. lia.
Qed.

Lemma split_2_6 (z : Z) :
  is_byte z →
  0 <= Z.shiftr z 6 < 4 ∧ 0 <= Z.land z 63 < 64
  ∧ Z.lor (Z.shiftl (Z.shiftr z 6) 6) (Z.land z 63) = z.
Proof.
  intros Hz.
  pose proof (range_check 256
    (fun z => (0 <=? Z.shiftr z 6) && (Z.shiftr z 6 <? 4)
              && (0 <=? Z.land z 63) && (Z.land z 63 <? 64)
              && (Z.lor (Z.shiftl (Z.shiftr z 6) 6) (Z.land z 63) =? z))
    eq_refl z Hz) as H.
  cbv beta in H. rewrite !andb_true_iff in H. lia.
Qed.

(** Two bits above a nibble, and a nibble above two bits, make a sextet
    from which both parts can be read back. *)
Lemma join_2_4 (p q : Z) :
  0 <= p < 4 → 0 <= q < 16 →
  0 <= Z.lor (Z.shiftl p 4) q < 64
  ∧ Z.shiftr (Z.lor (Z.shiftl p 4) q) 4 = p
  ∧ Z.land (Z.lor (Z.shiftl p 4) q) 15 = q.
Proof.
  intros Hp Hq.
  pose proof (range_check2 4 16
    (fun p q => (0 <=? Z.lor (Z.shiftl p 4) q)
                && (Z.lor (Z.shiftl p 4) q <? 64)
                && (Z.shiftr (Z.lor (Z.shiftl p 4) q) 4 =? p)
                && (Z.land (Z.lor (Z.shiftl p 4) q) 15 =? q))
    eq_refl p q Hp Hq) as H.
  cbv beta in H. rewrite !andb_true_iff in H. lia.
Qed.

Lemma join_4_2 (p q : Z) :
  0 <= p < 16 → 0 <= q < 4 →
  0 <= Z.lor (Z.shiftl p 2) q < 64
  ∧ Z.shiftr (Z.lor (Z.shiftl p 2) q) 2 = p
  ∧ Z.land (Z.lor (Z.shiftl p 2) q) 3 = q.
Proof.
  intros Hp Hq.
  pose proof (range_check2 16 4
    (fun p q => (0 <=? Z.lor (Z.shiftl p 2) q)
                && (Z.lor (Z.shiftl p 2) q <? 64)
                && (Z.shiftr (Z.lor (Z.shiftl p 2) q) 2 =? p)
                && (Z.land (Z.lor (Z.shiftl p 2) q) 3 =? q))
    eq_refl p q Hp Hq) as H.
  cbv beta in H. rewrite !andb_true_iff in H. lia.
Qed.

(** Decoding recovers the bytes that were encoded. *)
Lemma DecodeString_EncodeToString (l : list Z) :
  Forall is_byte l → DecodeString (EncodeToString l) = l.
Proof.
  remember (length l) as n eqn:Hn.
  revert l Hn. induction (lt_wf n) as [n _ IH]. intros l Hn Hl.
  destruct l as [|x [|y [|z rest]]]; [done| | |].
  - apply Forall_cons in Hl as [Hx _].
    destruct (split_6_2 x Hx) as (Hx6 & Hx2 & Hxx).
    destruct (join_2_4 (Z.land x 3) 0 Hx2) as (Hs & Hsp & _); [lia|].
    rewrite Z.lor_0_r in Hs, Hsp.
    cbn [EncodeToString DecodeString]. change (Ascii.eqb "=" "=") with true.
    cbv iota. by rewrite !unb64_b64, Hsp, Hxx.
  - apply Forall_cons in Hl as [Hx Hl]. apply Forall_cons in Hl as [Hy _].
    destruct (split_6_2 x Hx) as (Hx6 & Hx2 & Hxx).
    destruct (split_4_4 y Hy) as (Hyh & Hyl & Hyy).
    destruct (join_2_4 _ _ Hx2 Hyh) as (Hs & Hsp & Hsq).
    destruct (join_4_2 (Z.land y 15) 0 Hyl) as (Ht & Htp & _); [lia|].
    rewrite Z.lor_0_r in Ht, Htp.
    cbn [EncodeToString DecodeString]. rewrite b64_not_pad.
    change (Ascii.eqb "=" "=") with true. cbv iota.
    by rewrite !unb64_b64, Hsp, Hsq, Htp, Hxx, Hyy.
  - apply Forall_cons in Hl as [Hx Hl]. apply Forall_cons in Hl as [Hy Hl].
    apply Forall_cons in Hl as [Hz Hl].
    destruct (split_6_2 x Hx) as (Hx6 & Hx2 & Hxx).
    destruct (split_4_4 y Hy) as (Hyh & Hyl & Hyy).
    destruct (split_2_6 z Hz) as (Hz2 & Hz6 & Hzz).
    destruct (join_2_4 _ _ Hx2 Hyh) as (Hs & Hsp & Hsq).
    destruct (join_4_2 _ _ Hyl Hz2) as (Ht & Htp & Htq).
    cbn [EncodeToString DecodeString]. rewrite !b64_not_pad.
    rewrite !unb64_b64, Hsp, Hsq, Htp, Htq, Hxx, Hyy, Hzz by done.
    do 3 f_equal. apply (IH (length rest)); [simpl in Hn; lia | done | done].
Qed.

Lemma EncodeToString_inj (l1 l2 : list Z) :
  Forall is_byte l1 → Forall is_byte l2 →
  EncodeToString l1 = EncodeToString l2 → l1 = l2.
Proof.
  intros H1 H2 Heq%(f_equal DecodeString).
  by rewrite !DecodeString_EncodeToString in Heq.
Qed.

(** The hash outputs are bytes. *)
Lemma to_be_bytes (n : nat) (x : Z) : Forall is_byte (Word32.to_be n x).
Proof.
  revert x. induction n as [|n IH]; intros x; [constructor|].
  cbn [Word32.to_be]. apply Forall_app. split; [apply IH|].
  constructor; [|constructor]. unfold is_byte.
  change 0xFF with (Z.ones 8). rewrite Z.land_ones by lia. 
  apply Z.mod_pos_bound. lia.
Qed.

Lemma Sum256_bytes (msg : list Z) : Forall is_byte (SHA256.Sum256 msg).
Proof.
  unfold SHA256.Sum256. generalize (fold_left SHA256.compress
                                      (md_blocks msg) SHA256.init).
  intros h. induction h as [|x h IH]; [constructor|].
  cbn [flat_map]. apply Forall_app. split; [apply to_be_bytes | apply IH].
Qed.

Lemma hmac_sha256_bytes (key msg : list Z) :
  Forall is_byte (hmac_sha256 key msg).
Proof. apply Sum256_bytes. Qed.

(** ** What the parameter string renders

    The parameter string is the renderings [key=value] of the keys in
    ascending order, joined by [&]; a key of the mapping is rendered
    once, with the value [Get] reads for it. *)

Lemma paramString_rendered v :
  paramString v =
  Join ((fun key => key +:+ "=" +:+ Values_Get v key) <$> sorted_keys v) "&".
Proof. reflexivity. Qed.

Lemma paramString_split v k :
  k ∈ sorted_keys v →
  ∃ before after,
    sorted_keys v = before ++ k :: after
    ∧ k ∉ before ∧ k ∉ after
    ∧ paramString v =
        Join (((fun key => key +:+ "=" +:+ Values_Get v key) <$> before)
              ++ (k +:+ "=" +:+ Values_Get v k)
              :: ((fun key => key +:+ "=" +:+ Values_Get v key) <$> after))
          "&".
Proof.
  intros Hin. destruct (list_elem_of_split _ _ Hin) as (before & after & Hs).
  exists before, after. pose proof (sorted_keys_NoDup v) as Hnd.
  rewrite Hs in Hnd. apply NoDup_app in Hnd as (_ & Hba & Hnd).
  apply NoDup_cons in Hnd as (Hka & _).
  split; [done|]. split; [|split; [done|]].
  - intros Hb. apply (Hba k Hb). left.
  - rewrite paramString_rendered, Hs. by rewrite fmap_app, fmap_cons.
Qed.

Lemma paramString_oauth_fields_ext c nonce v1 v2 :
  dom v1 = dom v2 → (∀ k, Values_first v1 k = Values_first v2 k) →
  paramString (oauth_fields c nonce v1) = paramString (oauth_fields c nonce v2).
Proof.
  intros Hdom Hfirst. unfold oauth_fields. apply paramString_ext;
    repeat (apply Values_Add_ext; try done).
Qed.

(** C8, as stated, fails: when the caller's mapping already binds
    [oauth_nonce] and [oauth_timestamp], two runs whose entropy and
    clocks differ produce the same signature. *)
Lemma oauth_signature_blind_to_nonce_and_clock :
  read_nonce (world_with golden_params (repeat 1 16))
    ≠ read_nonce (world_with golden_params (repeat 2 16))
  ∧ nonce_digest (read_nonce (world_with golden_params (repeat 1 16)))
    ≠ nonce_digest (read_nonce (world_with golden_params (repeat 2 16)))
  ∧ Unix (OauthTimestamp (opt (golden_client 1000000000)))
    ≠ Unix (OauthTimestamp (opt (golden_client 1000000001)))
  ∧ signature_of (caller_Values 0%nat run_A.2)
    = signature_of (caller_Values 0%nat run_B.2)
  ∧ signature_of (caller_Values 0%nat run_A.2)
    = "bHWYNlH/EnFg3P5zc/obiKcUdO0MNaxLGKCSAYmM4gA=".
Proof.
  split; [vm_compute; discriminate|].
  split; [vm_compute; discriminate|].
  split; [vm_compute; discriminate|].
  split; vm_compute; reflexivity.
Qed.

(** C8, amended: the signature is a function of the credentials, the
    method, the URL, the caller's mapping, the nonce bytes and the
    timestamp; when the caller's mapping binds neither [oauth_nonce]
    nor [oauth_timestamp], two runs whose nonce digests or timestamps
    differ sign different base strings; and two runs give the same
    signature only if HMAC-SHA256 gives the same output on their base
    strings. *)
Theorem oauth_signature_determined_and_fresh
    (c1 c2 : Client) (method urlStr : string) (v : Values)
    (nonce1 nonce2 : list Z) :
  ck c1 = ck c2 → cs c1 = cs c2 →
  (nonce1 = nonce2 →
   Unix (OauthTimestamp (opt c1)) = Unix (OauthTimestamp (opt c2)) →
   oauth_signature c1 method urlStr nonce1 v
   = oauth_signature c2 method urlStr nonce2 v)
  ∧ (v !! "oauth_nonce" = None → v !! "oauth_timestamp" = None →
     nonce_digest nonce1 ≠ nonce_digest nonce2
     ∨ Unix (OauthTimestamp (opt c1)) ≠ Unix (OauthTimestamp (opt c2)) →
     baseString method urlStr (paramString (oauth_fields c1 nonce1 v))
     ≠ baseString method urlStr (paramString (oauth_fields c2 nonce2 v)))
  ∧ (oauth_signature c1 method urlStr nonce1 v
     = oauth_signature c2 method urlStr nonce2 v →
     hmac_sha256 (bytes_of_string (cs c1 +:+ "&"))
       (bytes_of_string
          (baseString method urlStr
             (paramString (oauth_fields c1 nonce1 v))))
     = hmac_sha256 (bytes_of_string (cs c1 +:+ "&"))
         (bytes_of_string
            (baseString method urlStr
               (paramString (oauth_fields c2 nonce2 v)))))
  ∧ ∀ params w,
      signature_of
        (caller_Values (params_loc params w)
           (oauth c1 method urlStr params w).2)
      = oauth_signature c1 method urlStr (read_nonce w)
          (params_Values params w).
Proof.
  intros Hck Hcs. split; [|split; [|split]].
  - intros -> Hts. unfold oauth_signature, oauth_fields.
    by rewrite !oauthSign_unfold, Hck, Hcs, Hts.
  - intros Hnonce Hclock Hdiff Hbase.
    apply baseString_inj in Hbase. unfold paramString in Hbase.
    rewrite (sorted_keys_dom (oauth_fields c2 nonce2 v)
               (oauth_fields c1 nonce1 v)) in Hbase
      by by rewrite !dom_oauth_fields.
    assert (Hsame : ∀ k, k ∈ sorted_keys (oauth_fields c1 nonce1 v) →
              Values_Get (oauth_fields c1 nonce1 v) k
              = Values_Get (oauth_fields c2 nonce2 v) k).
    { apply Join_rendered_inj; [|exact Hbase]. intros k _ Hne.
      destruct (decide (k = "oauth_nonce")) as [->|Hkn].
      { rewrite !Values_Get_oauth_nonce by done.
        split; apply hex_lower_avoids_amp. }
      destruct (decide (k = "oauth_timestamp")) as [->|Hkt].
      { rewrite !Values_Get_oauth_timestamp by done.
        split; apply Itoa_avoids_amp. }
      destruct Hne. by apply Values_Get_oauth_fields_other. }
    assert (Hn : "oauth_nonce" ∈ sorted_keys (oauth_fields c1 nonce1 v)).
    { rewrite elem_of_sorted_keys, dom_oauth_fields. set_solver. }
    assert (Ht : "oauth_timestamp" ∈ sorted_keys (oauth_fields c1 nonce1 v)).
    { rewrite elem_of_sorted_keys, dom_oauth_fields. set_solver. }
    apply Hsame in Hn, Ht.
    rewrite !Values_Get_oauth_nonce in Hn by done.
    rewrite !Values_Get_oauth_timestamp in Ht by done.
    apply Itoa_inj in Ht. by destruct Hdiff.
  - unfold oauth_signature, oauthSign. rewrite !signingKey_amp, <-Hcs.
    apply EncodeToString_inj; apply hmac_sha256_bytes.
  - intros params w.
    by rewrite caller_Values_oauth, signature_of_oauth_Values.
Qed.

Lemma oauth_signature_determined_and_fresh_witness :
  ck (golden_client 1000000000) = ck (golden_client 1000000001)
  ∧ cs (golden_client 1000000000) = cs (golden_client 1000000001)
  ∧ baseString "GET" golden_url
      (paramString (oauth_fields (golden_client 1000000000) (repeat 1 16) ∅))
    ≠ baseString "GET" golden_url
        (paramString
           (oauth_fields (golden_client 1000000001) (repeat 2 16) ∅)).
Proof.
  split; [reflexivity|]. split; [reflexivity|].
  destruct (oauth_signature_determined_and_fresh
              (golden_client 1000000000) (golden_client 1000000001)
              "GET" golden_url ∅ (repeat 1 16) (repeat 2 16)
              eq_refl eq_refl) as (_ & Hfresh & _ & _).
  apply Hfresh; [reflexivity | reflexivity |].
  right. vm_compute. discriminate.
Defined.

(** C10: when the caller's mapping binds a key to several values, the
    signed parameter string renders that key once, with its first value
    only; the signature the call stores is [oauthSign] of that string;
    the encoded query carries every one of the values; and neither the
    parameter string nor the signature changes with the values after the
    first. *)
Theorem oauth_signs_first_value_only
    (c : Client) (method urlStr : string) (params : option loc) (w : World)
    (k x : string) (xs : list string) :
  params_Values params w !! k = Some (x :: xs) →
  k ∈ sorted_keys (oauth_fields c (read_nonce w) (params_Values params w))
  ∧ Values_Get (oauth_fields c (read_nonce w) (params_Values params w)) k = x
  ∧ (oauth c method urlStr params w).1 =
      Join (encode_pair <$>
              Values_pairs
                (oauth_Values c method urlStr (read_nonce w)
                   (params_Values params w))) "&"
  ∧ (∀ y, y ∈ x :: xs →
       (k, y) ∈ Values_pairs
                  (oauth_Values c method urlStr (read_nonce w)
                     (params_Values params w)))
  ∧ (∀ xs',
       oauth_signature c method urlStr (read_nonce w)
         (<[k := x :: xs']> (params_Values params w))
       = oauth_signature c method urlStr (read_nonce w)
           (params_Values params w))
  ∧ (∃ before after,
       sorted_keys (oauth_fields c (read_nonce w) (params_Values params w))
       = before ++ k :: after
       ∧ k ∉ before ∧ k ∉ after
       ∧ paramString
           (oauth_fields c (read_nonce w) (params_Values params w))
         = Join
             (((fun key =>
                  key +:+ "=" +:+
                  Values_Get
                    (oauth_fields c (read_nonce w) (params_Values params w))
                    key) <$> before)
              ++ (k +:+ "=" +:+ x)
              :: ((fun key =>
                     key +:+ "=" +:+
                     Values_Get
                       (oauth_fields c (read_nonce w)
                          (params_Values params w)) key) <$> after))
             "&")
  ∧ signature_of
      (caller_Values (params_loc params w)
         (oauth c method urlStr params w).2)
    = oauthSign c method urlStr
        (paramString
           (oauth_fields c (read_nonce w) (params_Values params w)))
  ∧ (∀ xs',
       paramString
         (oauth_fields c (read_nonce w)
            (<[k := x :: xs']> (params_Values params w)))
       = paramString
           (oauth_fields c (read_nonce w) (params_Values params w))).
Proof.
  set (v := params_Values params w). set (nonce := read_nonce w).
  intros Hk.
  assert (Hin : k ∈ sorted_keys (oauth_fields c nonce v)).
  { rewrite elem_of_sorted_keys, dom_oauth_fields.
    apply elem_of_union_r, elem_of_dom. eauto. }
  assert (Hget : Values_Get (oauth_fields c nonce v) k = x).
  { rewrite Values_Get_first. unfold oauth_fields.
    erewrite (Values_first_Add_Some _ _ _ _ x); [done|].
    do 3 apply Values_first_Add_Some. unfold Values_first. by rewrite Hk. }
  assert (Hdom : ∀ xs', dom (<[k := x :: xs']> v) = dom v).
  { intros xs'. rewrite dom_insert_L.
    apply (elem_of_dom_2 _ _ _) in Hk. set_solver. }
  split; [done|]. split; [done|].
  split; [|split; [|split; [|split; [|split]]]].
  - rewrite oauth_run. apply Values_Encode_pairs.
  - intros y Hy. apply elem_of_Values_pairs.
    unfold oauth_Values, oauth_fields.
    destruct (Values_Add_keeps v "oauth_consumer_key" (ck c) k _ y Hk Hy)
      as (l1 & Hl1 & Hy1).
    destruct (Values_Add_keeps _ "oauth_timestamp"
                (Itoa (Unix (OauthTimestamp (opt c)))) k _ y Hl1 Hy1)
      as (l2 & Hl2 & Hy2).
    destruct (Values_Add_keeps _ "oauth_nonce" (nonce_digest nonce)
                k _ y Hl2 Hy2) as (l3 & Hl3 & Hy3).
    destruct (Values_Add_keeps _ "oauth_signature_method" HashAlgorithm
                k _ y Hl3 Hy3) as (l4 & Hl4 & Hy4).
    exact (Values_Add_keeps _ "oauth_signature"
             (oauth_signature c method urlStr nonce v) k _ y Hl4 Hy4).
  - intros xs'. apply oauth_signature_ext; [apply Hdom|].
    intros k'. by eapply Values_first_insert_same.
  - destruct (paramString_split _ _ Hin)
      as (before & after & Hs & Hb & Ha & Hp).
    exists before, after. do 3 (split; [done|]). by rewrite Hp, Hget.
  - by rewrite caller_Values_oauth, signature_of_oauth_Values.
  - intros xs'. apply paramString_oauth_fields_ext; [apply Hdom|].
    intros k'. by eapply Values_first_insert_same.
Qed.

Lemma oauth_signs_first_value_only_witness :
  params_Values (Some 0%nat) (world_with multi_params (repeat 1 16))
    !! "filter" = Some ["a"; "b"]
  ∧ Values_Get
      (oauth_fields (golden_client 1000000000)
         (read_nonce (world_with multi_params (repeat 1 16)))
         (params_Values (Some 0%nat)
            (world_with multi_params (repeat 1 16)))) "filter" = "a"
  ∧ ("filter", "b")
      ∈ Values_pairs
          (oauth_Values (golden_client 1000000000) "GET" golden_url
             (read_nonce (world_with multi_params (repeat 1 16)))
             (params_Values (Some 0%nat)
                (world_with multi_params (repeat 1 16))))
  ∧ paramString
      (oauth_fields (golden_client 1000000000)
         (read_nonce (world_with multi_params (repeat 1 16)))
         (params_Values (Some 0%nat)
            (world_with multi_params (repeat 1 16))))
    = "filter=a&oauth_consumer_key=ck&oauth_nonce=345c0e97987b1f4e1be38ee1678a5f1061c2c301&oauth_signature_method=HMAC-SHA256&oauth_timestamp=1000000000"
  ∧ signature_of
      (caller_Values 0%nat
         (oauth (golden_client 1000000000) "GET" golden_url (Some 0%nat)
            (world_with multi_params (repeat 1 16))).2)
    = oauthSign (golden_client 1000000000) "GET" golden_url
        "filter=a&oauth_consumer_key=ck&oauth_nonce=345c0e97987b1f4e1be38ee1678a5f1061c2c301&oauth_signature_method=HMAC-SHA256&oauth_timestamp=1000000000"
  ∧ (oauth (golden_client 1000000000) "GET" golden_url (Some 0%nat)
       (world_with multi_params (repeat 1 16))).1
    = "filter=a&filter=b&oauth_consumer_key=ck&oauth_nonce=345c0e97987b1f4e1be38ee1678a5f1061c2c301&oauth_signature=xZMnwM6eQ64RZ%2B1rre4CdO%2FJ%2FLPeOpEJnqiqs9mHd0g%3D&oauth_signature_method=HMAC-SHA256&oauth_timestamp=1000000000".
Proof.
  assert (H : params_Values (Some 0%nat)
                (world_with multi_params (repeat 1 16))
                !! "filter" = Some ["a"; "b"]) by reflexivity.
  split; [exact H|].
  destruct (oauth_signs_first_value_only (golden_client 1000000000)
              "GET" golden_url (Some 0%nat)
              (world_with multi_params (repeat 1 16)) "filter" "a" ["b"] H)
    as (_ & Hget & _ & Hall & _ & _ & Hsig & _).
  assert (Hp : paramString
      (oauth_fields (golden_client 1000000000)
         (read_nonce (world_with multi_params (repeat 1 16)))
         (params_Values (Some 0%nat)
            (world_with multi_params (repeat 1 16))))
    = "filter=a&oauth_consumer_key=ck&oauth_nonce=345c0e97987b1f4e1be38ee1678a5f1061c2c301&oauth_signature_method=HMAC-SHA256&oauth_timestamp=1000000000")
    by (vm_compute; reflexivity).
  split; [exact Hget|]. split; [apply Hall; right; left|].
  split; [exact Hp|]. split; [by rewrite <- Hp|].
  vm_compute. reflexivity.
Defined.

(** * The request builder *)

Section RequestFacts.
Variable URL_String : URL -> string.
Variable url_Parse : string -> URL + string.
Variable network : HTTPClient -> Request -> Response + string.

Implicit Types (c : Client) (w : World) (params : option loc).

Local Abbreviation sign := (signed_url URL_String).
Local Abbreviation run := (request URL_String url_Parse network).
Local Abbreviation signed := (auth_Values URL_String).
Local Abbreviation sent := (dispatched_request URL_String).

Lemma signed_url_run c method endpoint params w :
  sign c method endpoint params w =
  ((URL_String (storeURL c) +:+ endpoint) +:+ "?"
     +:+ Values_Encode (signed c method endpoint params w),
   {| heap := <[params_loc params w :=
                  signed c method endpoint params w]> (heap w);
      entropy := if String.eqb (Scheme (storeURL c)) "https"
                 then entropy w else drop 16 (entropy w);
      trace := trace w |}).
Proof.
  unfold signed_url, auth_Values, bind, ret.
  destruct (String.eqb (Scheme (storeURL c)) "https").
  - by rewrite basicAuth_run.
  - by rewrite oauth_run.
Qed.

Lemma recognised_spec method :
  recognised method = true
  ↔ method ∈ ["GET"; "POST"; "PUT"; "DELETE"; "OPTIONS"].
Proof.
  unfold recognised. rewrite !orb_true_iff, !String.eqb_eq.
  rewrite !elem_of_cons, elem_of_nil. tauto.
Qed.

(** [request], step by step: sign, print, validate, build, send,
    interpret. *)
Lemma request_run c method endpoint params data w :
  run c method endpoint params data w =
  let sg := sign c method endpoint params w in
  let printed :=
    {| heap := heap sg.2; entropy := entropy sg.2;
       trace := trace sg.2 ++ [EvPrintln data] |} in
  if recognised method then
    match url_Parse sg.1 with
    | inr _ =>
        (Panics "invalid memory address or nil pointer dereference",
         printed)
    | inl _ =>
        let req := sent c method endpoint params data w in
        (match network (rawClient c) req with
         | inr err => Returns None (Some (ErrLibrary err))
         | inl resp =>
             if negb (StatusCode resp =? 200)
                && negb (StatusCode resp =? 201)
             then Returns None (Some (ErrStatus (Status resp)))
             else Returns (Some (RespBody resp)) None
         end,
         {| heap := heap printed; entropy := entropy printed;
            trace := trace printed ++ [EvDo req] |})
    end
  else (Returns None (Some (ErrMethod method)), printed).
Proof.
  unfold request, bind, ret, emit, http_NewRequest, Do, Header_Set,
    dispatched_request, bind, ret, emit.
  destruct (sign c method endpoint params w) as [urlstr w1] eqn:Hs.
  cbn [fst snd heap entropy trace].
  destruct (recognised method); [|done].
  destruct (url_Parse urlstr); [|done].
  cbn [Method RequestURL Header Body heap entropy trace].
  rewrite insert_empty.
  by destruct (network _ _) as [resp|err];
    [destruct (negb _ && negb _)|].
Qed.

(** C4: [request] accepts exactly GET, POST, PUT, DELETE and OPTIONS.
    Any other method, PATCH for one, makes it return the validation
    error that names the method, and it returns it without having
    handed anything to the network: all it did was print the body. *)
Theorem request_method_validation c method endpoint params data w :
  (recognised method = true
   ↔ method ∈ ["GET"; "POST"; "PUT"; "DELETE"; "OPTIONS"])
  ∧ recognised "PATCH" = false
  ∧ if recognised method
    then ∀ m, (run c method endpoint params data w).1
              ≠ Returns None (Some (ErrMethod m))
    else (run c method endpoint params data w).1
         = Returns None (Some (ErrMethod method))
         ∧ Error (ErrMethod method)
           = "Method is not recognised: " +:+ method
         ∧ trace (run c method endpoint params data w).2
           = trace w ++ [EvPrintln data].
Proof.
  split; [apply recognised_spec|]. split; [done|].
  rewrite request_run. cbn zeta. rewrite signed_url_run.
  cbn [fst snd heap entropy trace].
  destruct (recognised method); [|done].
  intros m. destruct (url_Parse _); [|done]. cbn [fst].
  destruct (network _ _); [|done].
  by destruct (negb _ && negb _).
Qed.

(** C6: when the request is dispatched and the network answers, status
    200 or 201 makes [request] return the response body and no error;
    any other status makes it return no body and an error whose message
    carries the status text. *)
Theorem request_interprets_status c method endpoint params data w u resp :
  recognised method = true →
  url_Parse (sign c method endpoint params w).1 = inl u →
  network (rawClient c) (sent c method endpoint params data w)
    = inl resp →
  (run c method endpoint params data w).1
  = (if (StatusCode resp =? 200) || (StatusCode resp =? 201)
     then Returns (Some (RespBody resp)) None
     else Returns None (Some (ErrStatus (Status resp))))
  ∧ Error (ErrStatus (Status resp)) = "Request failed: " +:+ Status resp
  ∧ EvDo (sent c method endpoint params data w)
      ∈ trace (run c method endpoint params data w).2.
Proof.
  intros Hm Hu Hresp. rewrite request_run. cbn zeta.
  rewrite Hm, Hu, Hresp. cbn [fst snd trace].
  split; [|split; [done|]].
  - by destruct (StatusCode resp =? 200), (StatusCode resp =? 201).
  - apply elem_of_app. right. by left.
Qed.

(** C5: the scheme of the store URL selects the signer: [https] gives
    the Basic query, which encodes exactly the caller's pairs and the
    two credentials, with no [oauth_] key the caller did not pass;
    any other scheme gives the OAuth1 query.  That query is the only
    one appended to the URL, after one [?], and a request that is sent
    carries this URL. *)
Theorem request_selects_auth_mode c method endpoint params data w :
  (sign c method endpoint params w).1
  = (URL_String (storeURL c) +:+ endpoint) +:+ "?"
      +:+ (if String.eqb (Scheme (storeURL c)) "https"
           then (basicAuth c params w).1
           else (oauth c method (URL_String (storeURL c) +:+ endpoint)
                   params w).1)
  ∧ (basicAuth c params w).1
    = Join (encode_pair <$>
              Values_pairs (basic_Values c (params_Values params w))) "&"
  ∧ Values_pairs (basic_Values c (params_Values params w))
    ≡ₚ Values_pairs (params_Values params w)
       ++ [("consumer_key", ck c); ("consumer_secret", cs c)]
  ∧ (∀ k x,
       (k, x) ∈ Values_pairs (basic_Values c (params_Values params w)) →
       String.prefix "oauth_" k = true →
       (k, x) ∈ Values_pairs (params_Values params w))
  ∧ ∃ events,
      trace (run c method endpoint params data w).2
      = trace w ++ EvPrintln data :: events
      ∧ (events = []
         ∨ ∃ req, events = [EvDo req] ∧ Method req = method
                  ∧ RequestURL req = (sign c method endpoint params w).1).
Proof.
  assert (Hperm :
    Values_pairs (basic_Values c (params_Values params w))
    ≡ₚ Values_pairs (params_Values params w)
       ++ [("consumer_key", ck c); ("consumer_secret", cs c)]).
  { unfold basic_Values. rewrite !Values_pairs_Add.
    by rewrite <-app_assoc. }
  split; [|split; [|split; [|split]]].
  - rewrite signed_url_run, basicAuth_run, oauth_run. cbn [fst].
    unfold auth_Values. by destruct (String.eqb _ _).
  - rewrite basicAuth_run. apply Values_Encode_pairs.
  - exact Hperm.
  - intros k x Hin Hpre. rewrite Hperm in Hin.
    apply elem_of_app in Hin as [Hin|Hin]; [done|].
    apply elem_of_cons in Hin as [[= -> _]|Hin]; [done|].
    apply elem_of_cons in Hin as [[= -> _]|Hin]; [done|].
    by apply elem_of_nil in Hin.
  - rewrite request_run. cbn zeta.
    destruct (recognised method).
    + destruct (url_Parse _).
      * eexists [EvDo _]. cbn [snd trace].
        rewrite signed_url_run at 1. cbn [snd trace].
        rewrite <-app_assoc. split; [done|]. right. eauto.
      * exists []. rewrite signed_url_run. split; [done | by left].
    + exists []. rewrite signed_url_run. split; [done | by left].
Qed.

(** C9: a call with a non-nil mapping updates the caller's mapping in
    place.  Whatever the call returns (a body, a validation, transport
    or status error), the mapping the caller holds afterwards has, on
    top of its pairs, the two credentials in Basic mode and the five
    OAuth fields in OAuth1 mode; it is not the mapping the caller
    passed.  [Get] and [Delete] are such calls. *)
Theorem request_mutates_caller_params c method endpoint (l : loc) data w :
  Values_pairs
    (caller_Values l (run c method endpoint (Some l) data w).2)
  ≡ₚ Values_pairs (caller_Values l w)
     ++ (if String.eqb (Scheme (storeURL c)) "https"
         then [ ("consumer_key", ck c); ("consumer_secret", cs c) ]
         else [ ("oauth_consumer_key", ck c);
                ("oauth_timestamp", Itoa (Unix (OauthTimestamp (opt c))));
                ("oauth_nonce", nonce_digest (read_nonce w));
                ("oauth_signature_method", "HMAC-SHA256");
                ("oauth_signature",
                 oauth_signature c method
                   (URL_String (storeURL c) +:+ endpoint)
                   (read_nonce w) (caller_Values l w)) ])
  ∧ caller_Values l (run c method endpoint (Some l) data w).2
    ≠ caller_Values l w
  ∧ Get URL_String url_Parse network c endpoint (Some l) w
    = run c "GET" endpoint (Some l) None w
  ∧ Delete URL_String url_Parse network c endpoint (Some l) w
    = run c "POST" endpoint (Some l) None w.
Proof.
  assert (Hafter :
    caller_Values l (run c method endpoint (Some l) data w).2
    = signed c method endpoint (Some l) w).
  { rewrite request_run. cbn zeta. rewrite signed_url_run.
    unfold caller_Values.
    destruct (recognised method); [destruct (url_Parse _)|];
      cbn [fst snd heap params_loc]; by rewrite lookup_insert_eq. }
  assert (Hpairs :
    Values_pairs (signed c method endpoint (Some l) w)
    ≡ₚ Values_pairs (caller_Values l w)
       ++ (if String.eqb (Scheme (storeURL c)) "https"
           then [ ("consumer_key", ck c); ("consumer_secret", cs c) ]
           else [ ("oauth_consumer_key", ck c);
                  ("oauth_timestamp",
                   Itoa (Unix (OauthTimestamp (opt c))));
                  ("oauth_nonce", nonce_digest (read_nonce w));
                  ("oauth_signature_method", "HMAC-SHA256");
                  ("oauth_signature",
                   oauth_signature c method
                     (URL_String (storeURL c) +:+ endpoint)
                     (read_nonce w) (caller_Values l w)) ])).
  { unfold auth_Values, basic_Values, oauth_Values, oauth_fields.
    change (params_Values (Some l) w) with (caller_Values l w).
    destruct (String.eqb _ _); rewrite !Values_pairs_Add;
      by rewrite <-!app_assoc. }
  rewrite Hafter. split; [exact Hpairs|]. split; [|done].
  intros Heq. rewrite Heq in Hpairs.
  apply Permutation_length in Hpairs. rewrite length_app in Hpairs.
  destruct (String.eqb _ _); simpl in Hpairs; lia.
Qed.

(** C3: what [Delete] sends.  The method handed to [request], carried
    by the request that reaches the network and signed into the OAuth
    base string is POST. *)
Theorem Delete_dispatches_POST c endpoint params w :
  Delete URL_String url_Parse network c endpoint params w
  = run c "POST" endpoint params None w
  ∧ (∃ events,
       trace (Delete URL_String url_Parse network c endpoint params w).2
       = trace w ++ EvPrintln None :: events
       ∧ (events = []
          ∨ ∃ req, events = [EvDo req] ∧ Method req = "POST"
                   ∧ Method req ≠ "DELETE"))
  ∧ (if String.eqb (Scheme (storeURL c)) "https" then True
     else signature_of
            (caller_Values (params_loc params w)
               (Delete URL_String url_Parse network c endpoint params w).2)
          = oauthSign c "POST" (URL_String (storeURL c) +:+ endpoint)
              (paramString
                 (oauth_fields c (read_nonce w) (params_Values params w)))).
Proof.
  split; [done|]. unfold Delete. rewrite request_run. cbn zeta.
  rewrite signed_url_run. cbn [fst snd heap entropy trace]. split.
  - destruct (recognised "POST"); [destruct (url_Parse _)|];
      cbn [snd trace]; rewrite <-?app_assoc.
    + eexists [EvDo _]. split; [done|]. right. eexists. by split.
    + exists []. split; [done | by left].
    + exists []. split; [done | by left].
  - unfold auth_Values. destruct (String.eqb _ _); [done|].
    unfold caller_Values.
    destruct (recognised "POST"); [destruct (url_Parse _)|];
      cbn [snd heap]; rewrite lookup_insert_eq; cbn [from_option];
      apply signature_of_oauth_Values.
Qed.

End RequestFacts.

Lemma request_interprets_status_witness :
  recognised "GET" = true
  ∧ (request plain_URL_String lenient_Parse (answering not_found)
       (golden_client 1000000000) "GET" "products" None None
       starved_world).1
    = Returns None (Some (ErrStatus "404 Not Found"))
  ∧ Error (ErrStatus (Status not_found)) = "Request failed: 404 Not Found".
Proof.
  split; [reflexivity|].
  destruct (request_interprets_status plain_URL_String lenient_Parse
              (answering not_found) (golden_client 1000000000)
              "GET" "products" None None starved_world
              {| Scheme := ""; Host := ""; RawQuery := "";
                 Path := (signed_url plain_URL_String
                            (golden_client 1000000000) "GET" "products"
                            None starved_world).1 |}
              not_found eq_refl eq_refl eq_refl) as (Hout & Hmsg & _).
  split; [exact Hout | exact Hmsg].
Defined.

(** * Entropy failure *)

Lemma drop_repeat {A} (x : A) (n m : nat) :
  drop n (repeat x m) = repeat x (m - n).
Proof.
  revert n. induction m as [|m IH]; intros [|n]; simpl; auto.
Qed.

(** The error of the nonce read: none when the source has 16 bytes,
    [EOF] when it has none, [unexpected EOF] in between. *)
Lemma read_error_spec (w : World) :
  read_error w =
  if (length (entropy w) <? 16)%nat
  then Some (ErrLibrary (if (length (entropy w) =? 0)%nat
                         then "EOF" else "unexpected EOF"))
  else None.
Proof.
  unfold read_error, rand_Read. cbn [fst snd].
  change (length (repeat 0 16)) with 16%nat.
  destruct (Nat.ltb_spec (length (entropy w)) 16) as [Hlt|Hge].
  - rewrite take_ge by lia.
    by destruct (Nat.ltb_spec (length (entropy w)) 16); [|lia].
  - rewrite length_take_le by lia. done.
Qed.

Lemma read_nonce_short (w : World) :
  (length (entropy w) < 16)%nat →
  read_nonce w = entropy w ++ repeat 0 (16 - length (entropy w)).
Proof.
  intros Hshort. unfold read_nonce, rand_Read. cbn [fst].
  change (length (repeat 0 16)) with 16%nat.
  by rewrite take_ge, drop_repeat by lia.
Qed.

Lemma read_nonce_full (w : World) :
  (16 ≤ length (entropy w))%nat → read_nonce w = take 16 (entropy w).
Proof.
  intros Hfull. unfold read_nonce, rand_Read. cbn [fst].
  change (length (repeat 0 16)) with 16%nat.
  rewrite length_take_le by lia. change (drop 16 (repeat 0 16)) with (@nil Z).
  apply app_nil_r.
Qed.

(** Built with Go 1.23 or earlier, where [rand.Read] returns its error:
    a source that gives fewer than 16 bytes makes the read report an
    error; [oauth] drops it and signs with the digest of the buffer as
    the read left it, zeros where nothing was written. *)
Lemma oauth_signs_after_failed_read
    (c : Client) (method urlStr : string) (params : option loc) (w : World) :
  (length (entropy w) < 16)%nat →
  read_error w
  = Some (ErrLibrary (if (length (entropy w) =? 0)%nat
                      then "EOF" else "unexpected EOF"))
  ∧ read_nonce w = entropy w ++ repeat 0 (16 - length (entropy w))
  ∧ (oauth c method urlStr params w).1
    = Values_Encode
        (oauth_Values c method urlStr
           (entropy w ++ repeat 0 (16 - length (entropy w)))
           (params_Values params w))
  ∧ ("oauth_nonce",
     nonce_digest (entropy w ++ repeat 0 (16 - length (entropy w))))
    ∈ Values_pairs
        (caller_Values (params_loc params w)
           (oauth c method urlStr params w).2).
Proof.
  intros Hshort.
  pose proof (read_nonce_short w Hshort) as Hnonce.
  split; [|split; [done|split]].
  - rewrite read_error_spec.
    by destruct (Nat.ltb_spec (length (entropy w)) 16); [|lia].
  - by rewrite oauth_run, Hnonce.
  - rewrite caller_Values_oauth, Hnonce. apply elem_of_Values_pairs.
    unfold oauth_Values, oauth_fields.
    destruct (Values_Add_keeps
                (Values_Add "oauth_nonce"
                   (nonce_digest
                      (entropy w ++ repeat 0 (16 - length (entropy w))))
                   (Values_Add "oauth_timestamp"
                      (Itoa (Unix (OauthTimestamp (opt c))))
                      (Values_Add "oauth_consumer_key" (ck c)
                         (params_Values params w))))
                "oauth_signature_method" HashAlgorithm "oauth_nonce" _
                (nonce_digest
                   (entropy w ++ repeat 0 (16 - length (entropy w))))
                (lookup_insert_eq _ _ _)) as (l1 & Hl1 & Hy1);
      [set_solver|].
    eapply Values_Add_keeps; eauto.
Qed.

Lemma oauth_signs_after_failed_read_example :
  (length (entropy starved_world) < 16)%nat
  ∧ read_error starved_world = Some (ErrLibrary "EOF")
  ∧ (oauth (golden_client 1000000000) "GET" golden_url None
       starved_world).1
    = Values_Encode
        (oauth_Values (golden_client 1000000000) "GET" golden_url
           (repeat 0 16) ∅)
  ∧ (oauth (golden_client 1000000000) "GET" golden_url None
       starved_world).1
    = "oauth_consumer_key=ck&oauth_nonce=e129f27c5103bc5cc44bcdf0a15e160d445066ff&oauth_signature=RHZFEVToL5eR0kZ%2FqhyVUM%2B2gl6yyMRwIsYKDB7sRsQ%3D&oauth_signature_method=HMAC-SHA256&oauth_timestamp=1000000000".
Proof.
  assert (H : (length (entropy starved_world) < 16)%nat) by (simpl; lia).
  split; [exact H|].
  destruct (oauth_signs_after_failed_read (golden_client 1000000000)
              "GET" golden_url None starved_world H)
    as (Herr & _ & Hout & _).
  split; [exact Herr|]. split; [exact Hout|].
  vm_compute. reflexivity.
Qed.

(** * Entropy failure under Go 1.24 and later *)

(** When the source has its 16 bytes the two embeddings of [oauth]
    agree: the run completes with the query and the world of [oauth]. *)
Lemma oauth_completes_with_entropy
    (c : Client) (method urlStr : string) (params : option loc) (w : World) :
  (16 ≤ length (entropy w))%nat →
  Go1_24.oauth c method urlStr params w
  = Completes (oauth c method urlStr params w).1
      (oauth c method urlStr params w).2.
Proof.
  intros Hfull.
  unfold Go1_24.oauth, oauth, Go1_24.rand_Read, rand_Read, bindR, bind,
    completing, new_Values, ret, update_Values, read_Values.
  change (length (repeat 0 16)) with 16%nat.
  destruct params as [l|]; cbn [heap entropy trace fst snd];
    rewrite length_take_le by lia; done.
Qed.

Lemma oauth_aborts_without_entropy
    (c : Client) (method urlStr : string) (params : option loc) (w : World) :
  (length (entropy w) < 16)%nat →
  Go1_24.oauth c method urlStr params w
  = Aborts ("crypto/rand: failed to read random data (see https://go.dev/issue/66821): "
            +:+ (if (length (entropy w) =? 0)%nat
                 then "EOF" else "unexpected EOF")).
Proof.
  intros Hshort.
  unfold Go1_24.oauth, Go1_24.rand_Read, rand_Read, bindR,
    completing, new_Values, ret, update_Values, read_Values.
  change (length (repeat 0 16)) with 16%nat.
  destruct params as [l|]; cbn [heap entropy trace fst snd];
    rewrite take_ge by lia;
    (destruct (Nat.ltb_spec (length (entropy w)) 16); [done | lia]).
Qed.

(** C7: when reading the 16 random bytes fails, signing does not
    proceed.  Under Go 1.24 and later a source that gives fewer than 16
    bytes makes the read fail, and the call of [oauth] aborts with the
    runtime's fatal error instead of returning a query; and whenever a
    call of [oauth] completes, in any world, the source had its 16
    bytes, the nonce buffer was filled with them entirely, and the query
    is the one signed over that nonce. *)
Theorem oauth_aborts_on_failed_read
    (c : Client) (method urlStr : string) (params : option loc) (w : World) :
  (length (entropy w) < 16)%nat →
  read_error w ≠ None
  ∧ Go1_24.oauth c method urlStr params w
    = Aborts ("crypto/rand: failed to read random data (see https://go.dev/issue/66821): "
              +:+ (if (length (entropy w) =? 0)%nat
                   then "EOF" else "unexpected EOF"))
  ∧ (∀ query w', Go1_24.oauth c method urlStr params w ≠ Completes query w')
  ∧ (∀ w0 query w',
       Go1_24.oauth c method urlStr params w0 = Completes query w' →
       (16 ≤ length (entropy w0))%nat
       ∧ read_error w0 = None
       ∧ read_nonce w0 = take 16 (entropy w0)
       ∧ query
         = Values_Encode
             (oauth_Values c method urlStr (take 16 (entropy w0))
                (params_Values params w0))).
Proof.
  intros Hshort. split; [|split; [|split]].
  - rewrite read_error_spec.
    by destruct (Nat.ltb_spec (length (entropy w)) 16); [|lia].
  - by apply oauth_aborts_without_entropy.
  - intros query w'. by rewrite oauth_aborts_without_entropy.
  - intros w0 query w' Hrun.
    destruct (Nat.lt_ge_cases (length (entropy w0)) 16) as [Hlt|Hge].
    { by rewrite oauth_aborts_without_entropy in Hrun. }
    rewrite oauth_completes_with_entropy in Hrun by done.
    injection Hrun as Hquery _. split; [done|]. split; [|split].
    + rewrite read_error_spec.
      by destruct (Nat.ltb_spec (length (entropy w0)) 16); [lia|].
    + by apply read_nonce_full.
    + by rewrite <- Hquery, oauth_run, read_nonce_full.
Qed.

Lemma oauth_aborts_on_failed_read_witness :
  (length (entropy starved_world) < 16)%nat
  ∧ read_error starved_world ≠ None
  ∧ Go1_24.oauth (golden_client 1000000000) "GET" golden_url None
      starved_world
    = Aborts "crypto/rand: failed to read random data (see https://go.dev/issue/66821): EOF".
Proof.
  assert (H : (length (entropy starved_world) < 16)%nat) by (simpl; lia).
  split; [exact H|].
  destruct (oauth_aborts_on_failed_read (golden_client 1000000000)
              "GET" golden_url None starved_world H)
    as (Herr & Habort & _).
  split; [exact Herr | exact Habort].
Defined.

(** A source that gives three bytes: the read fails with
    [unexpected EOF], and the run aborts. *)
Example oauth_aborts_on_partial_read :
  Go1_24.oauth (golden_client 1000000000) "GET" golden_url (Some 0%nat)
    (world_with ∅ [1; 2; 3])
  = Aborts "crypto/rand: failed to read random data (see https://go.dev/issue/66821): unexpected EOF".
Proof. reflexivity. Qed.

(** * Reading the signed query back *)

Lemma all_chars_app (P : ascii → bool) (s1 s2 : string) :
  all_chars P (s1 +:+ s2) = all_chars P s1 && all_chars P s2.
Proof.
  induction s1 as [|c s1 IH]; [done|].
  rewrite append_String. cbn [all_chars]. by rewrite IH, andb_assoc.
Qed.

Lemma all_chars_impl (P Q : ascii → bool) (s : string) :
  (∀ c, P c = true → Q c = true) →
  all_chars P s = true → all_chars Q s = true.
Proof.
  intros HPQ. induction s as [|c s IH]; [done|]. cbn [all_chars].
  rewrite !andb_true_iff. intros [Hc Hs]. auto.
Qed.

Lemma all_chars_avoids (P : ascii → bool) (a : ascii) (s : string) :
  P a = false → all_chars P s = true → avoids a s.
Proof.
  intros Ha. induction s as [|c s IH]; [done|]. cbn [all_chars avoids].
  rewrite andb_true_iff. intros [Hc Hs]. split; [|auto].
  intros ->. congruence.
Qed.

Lemma escape_char_escaped (c : ascii) :
  all_chars escaped_char (escape_char c) = true.
Proof. destruct c as [[] [] [] [] [] [] [] []]; reflexivity. Qed.

Lemma QueryEscape_escaped (s : string) :
  all_chars escaped_char (QueryEscape s) = true.
Proof.
  induction s as [|c s IH]; [done|]. cbn [QueryEscape].
  by rewrite all_chars_app, escape_char_escaped, IH.
Qed.

Lemma QueryEscape_avoids_amp (s : string) : avoids "&" (QueryEscape s).
Proof.
  by apply (all_chars_avoids escaped_char), QueryEscape_escaped.
Qed.

Lemma QueryEscape_avoids_eq (s : string) : avoids "=" (QueryEscape s).
Proof.
  by apply (all_chars_avoids escaped_char), QueryEscape_escaped.
Qed.

Lemma Split_avoids (sep : ascii) (s : string) :
  avoids sep s → Split sep s = [s].
Proof.
  induction s as [|c s IH]; [done|]. intros [Hc Hs]. cbn [Split].
  apply Ascii.eqb_neq in Hc. by rewrite Hc, IH.
Qed.

Lemma Split_app (sep : ascii) (s rest : string) :
  avoids sep s →
  Split sep (s +:+ String sep rest) = s :: Split sep rest.
Proof.
  induction s as [|c s IH]; intros Hs.
  - rewrite append_nil_l. cbn [Split]. by rewrite Ascii.eqb_refl.
  - destruct Hs as [Hc Hs]. rewrite append_String. cbn [Split].
    apply Ascii.eqb_neq in Hc. by rewrite Hc, IH.
Qed.

(** Splitting a join gives the elements back when none holds the
    separator. *)
Lemma Split_Join (l : list string) :
  l ≠ [] → Forall (avoids "&") l → Split "&" (Join l "&") = l.
Proof.
  intros Hne Hl. induction Hl as [|s l Hs Hl IH]; [done|].
  rewrite Join_cons. destruct l as [|s' l].
  - rewrite append_nil_r. by apply Split_avoids.
  - change ("&" +:+ Join (s' :: l) "&")
      with (String "&" (Join (s' :: l) "&")).
    rewrite Split_app by done. f_equal. by apply IH.
Qed.

Lemma Cut_app (sep : ascii) (s rest : string) :
  avoids sep s → Cut sep (s +:+ String sep rest) = (s, rest).
Proof.
  induction s as [|c s IH]; intros Hs.
  - rewrite append_nil_l. cbn [Cut]. by rewrite Ascii.eqb_refl.
  - destruct Hs as [Hc Hs]. rewrite append_String. cbn [Cut].
    apply Ascii.eqb_neq in Hc. by rewrite Hc, IH.
Qed.

Lemma encode_pair_avoids_amp (p : string * string) :
  avoids "&" (encode_pair p).
Proof.
  unfold encode_pair. apply avoids_app; [apply QueryEscape_avoids_amp|].
  apply (avoids_app _ "="); [by split | apply QueryEscape_avoids_amp].
Qed.

Lemma query_pairs_Join (ps : list (string * string)) :
  query_pairs (Join (encode_pair <$> ps) "&") = ps.
Proof.
  unfold query_pairs. destruct ps as [|p ps]; [done|].
  rewrite Split_Join; [|done|].
  2:{ apply Forall_fmap, Forall_forall. intros q _.
      apply encode_pair_avoids_amp. }
  generalize (p :: ps). clear p ps. intros ps.
  induction ps as [|[k x] ps IH]; [done|].
  rewrite fmap_cons. cbn [omap list_omap].
  destruct (String.eqb_spec (encode_pair (k, x)) "") as [He|_].
  { by apply encode_pair_nonempty in He. }
  unfold encode_pair at 1. cbn [fst snd].
  change ("=" +:+ QueryEscape x) with (String "=" (QueryEscape x)).
  rewrite Cut_app by apply QueryEscape_avoids_eq.
  rewrite !QueryUnescape_QueryEscape. f_equal. apply IH.
Qed.

(** What [Encode] writes reads back as the pairs of the mapping. *)
Lemma query_pairs_Values_Encode (v : Values) :
  query_pairs (Values_Encode v) = Values_pairs v.
Proof. rewrite Values_Encode_pairs. apply query_pairs_Join. Qed.

Lemma Join_all_chars (P : ascii → bool) (l : list string) :
  P "&"%char = true → Forall (fun s => all_chars P s = true) l →
  all_chars P (Join l "&") = true.
Proof.
  intros Hamp Hl. induction Hl as [|s l Hs Hl IH]; [done|].
  rewrite Join_cons, all_chars_app, Hs. destruct l; [done|].
  rewrite all_chars_app. cbn [all_chars]. by rewrite Hamp, IH.
Qed.

Lemma Values_Encode_chars (v : Values) :
  all_chars query_char (Values_Encode v) = true.
Proof.
  rewrite Values_Encode_pairs. apply Join_all_chars; [done|].
  apply Forall_fmap, Forall_forall. intros [k x] _.
  unfold compose, encode_pair. rewrite !all_chars_app.
  cbn [fst snd all_chars].
  assert (Hq : ∀ s, all_chars query_char (QueryEscape s) = true).
  { intros s. apply (all_chars_impl escaped_char); [|apply QueryEscape_escaped].
    intros c. unfold escaped_char, query_char.
    rewrite !orb_true_iff. tauto. }
  by rewrite !Hq.
Qed.

(** * More on the signers *)

Lemma Values_pairs_basic (c : Client) (v : Values) :
  Values_pairs (basic_Values c v)
  ≡ₚ Values_pairs v ++ [("consumer_key", ck c); ("consumer_secret", cs c)].
Proof.
  unfold basic_Values. rewrite !Values_pairs_Add. by rewrite <-app_assoc.
Qed.

Lemma Values_pairs_oauth (c : Client) (method urlStr : string)
    (nonce : list Z) (v : Values) :
  Values_pairs (oauth_Values c method urlStr nonce v)
  ≡ₚ Values_pairs v
     ++ [ ("oauth_consumer_key", ck c);
          ("oauth_timestamp", Itoa (Unix (OauthTimestamp (opt c))));
          ("oauth_nonce", nonce_digest nonce);
          ("oauth_signature_method", "HMAC-SHA256");
          ("oauth_signature", oauth_signature c method urlStr nonce v) ].
Proof.
  unfold oauth_Values, oauth_fields. rewrite !Values_pairs_Add.
  by rewrite <-!app_assoc.
Qed.

Lemma query_pairs_basicAuth (c : Client) (params : option loc) (w : World) :
  query_pairs (basicAuth c params w).1
  ≡ₚ Values_pairs (params_Values params w)
     ++ [("consumer_key", ck c); ("consumer_secret", cs c)].
Proof.
  rewrite basicAuth_run. cbn [fst]. rewrite query_pairs_Values_Encode.
  apply Values_pairs_basic.
Qed.

Lemma query_pairs_oauth (c : Client) (method urlStr : string)
    (params : option loc) (w : World) :
  query_pairs (oauth c method urlStr params w).1
  ≡ₚ Values_pairs (params_Values params w)
     ++ [ ("oauth_consumer_key", ck c);
          ("oauth_timestamp", Itoa (Unix (OauthTimestamp (opt c))));
          ("oauth_nonce", nonce_digest (read_nonce w));
          ("oauth_signature_method", "HMAC-SHA256");
          ("oauth_signature",
           oauth_signature c method urlStr (read_nonce w)
             (params_Values params w)) ].
Proof.
  rewrite oauth_run. cbn [fst]. rewrite query_pairs_Values_Encode.
  apply Values_pairs_oauth.
Qed.

(** X1: percent-decoding the query a signer returns gives back the
    caller's pairs and the fields the signer added, each once: nothing
    is dropped, duplicated or altered by the encoding. *)
Theorem signed_query_reads_back (c : Client) (method urlStr : string)
    (params : option loc) (w : World) :
  query_pairs (basicAuth c params w).1
  ≡ₚ Values_pairs (params_Values params w)
     ++ [("consumer_key", ck c); ("consumer_secret", cs c)]
  ∧ query_pairs (oauth c method urlStr params w).1
    ≡ₚ Values_pairs (params_Values params w)
       ++ [ ("oauth_consumer_key", ck c);
            ("oauth_timestamp", Itoa (Unix (OauthTimestamp (opt c))));
            ("oauth_nonce", nonce_digest (read_nonce w));
            ("oauth_signature_method", "HMAC-SHA256");
            ("oauth_signature",
             oauth_signature c method urlStr (read_nonce w)
               (params_Values params w)) ].
Proof. split; [apply query_pairs_basicAuth | apply query_pairs_oauth]. Qed.

(** X2: the query a signer returns is made of unreserved characters,
    [%], [+], [=] and [&] only, whatever the caller's keys and values
    and the credentials hold; it has no space, [?], [#] or [/]. *)
Theorem signed_query_characters (c : Client) (method urlStr : string)
    (params : option loc) (w : World) :
  all_chars query_char (basicAuth c params w).1 = true
  ∧ all_chars query_char (oauth c method urlStr params w).1 = true
  ∧ Forall (fun a => avoids a (basicAuth c params w).1
                     ∧ avoids a (oauth c method urlStr params w).1)
      [" "; "?"; "#"; "/"]%char.
Proof.
  rewrite basicAuth_run, oauth_run. cbn [fst].
  split; [apply Values_Encode_chars|]. split; [apply Values_Encode_chars|].
  repeat constructor;
    by apply (all_chars_avoids query_char), Values_Encode_chars.
Qed.

(** ** The query for an empty mapping *)

Lemma sorted_keys_of_dom (v : Values) (l : list string) :
  Sorted String.le l → NoDup l → dom v = list_to_set l →
  sorted_keys v = l.
Proof.
  intros Hsorted Hnodup Hdom.
  apply (Sorted_unique String.le); [apply sorted_keys_Sorted | done |].
  apply NoDup_Permutation; [apply sorted_keys_NoDup | done |].
  intros k. rewrite elem_of_sorted_keys, Hdom. apply elem_of_list_to_set.
Qed.

Lemma QueryEscape_unreserved (s : string) :
  all_chars (fun c => negb (shouldEscape c)) s = true → QueryEscape s = s.
Proof.
  induction s as [|c s IH]; [done|]. cbn [all_chars QueryEscape].
  rewrite andb_true_iff, negb_true_iff. intros [Hc Hs].
  rewrite IH by done. unfold escape_char. rewrite Hc.
  destruct (Ascii.eqb_spec c " ") as [->|_]; [discriminate | done].
Qed.

Lemma hex_lower_unreserved (b : list Z) :
  Forall is_byte b →
  all_chars (fun c => negb (shouldEscape c)) (hex_lower b) = true.
Proof.
  induction 1 as [|x b Hx Hb IH]; [done|]. cbn [hex_lower all_chars].
  rewrite IH, andb_true_r.
  apply (range_check 256
           (fun x => negb (shouldEscape
                             (digit_of "0123456789abcdef" (Z.shiftr x 4)))
                     && negb (shouldEscape
                                (digit_of "0123456789abcdef"
                                   (Z.land x 15))))); [|done].
  vm_compute. reflexivity.
Qed.

Lemma Sum_bytes (msg : list Z) : Forall is_byte (SHA1.Sum msg).
Proof.
  unfold SHA1.Sum.
  generalize (fold_left SHA1.compress (md_blocks msg) SHA1.init).
  intros h. induction h as [|x h IH]; [constructor|].
  cbn [flat_map]. apply Forall_app. split; [apply to_be_bytes | apply IH].
Qed.

Lemma nonce_digest_unreserved (nonce : list Z) :
  QueryEscape (nonce_digest nonce) = nonce_digest nonce.
Proof.
  apply QueryEscape_unreserved, hex_lower_unreserved, Sum_bytes.
Qed.

Lemma string_of_uint_unreserved (d : Decimal.uint) :
  all_chars (fun c => negb (shouldEscape c)) (NilEmpty.string_of_uint d)
  = true.
Proof. induction d; simpl; auto. Qed.

Lemma Itoa_unreserved (i : Z) : QueryEscape (Itoa i) = Itoa i.
Proof.
  apply QueryEscape_unreserved.
  unfold Itoa, NilZero.string_of_int, NilZero.string_of_uint.
  destruct (Z.to_int i) as [d|d]; destruct d; try reflexivity;
    cbn [all_chars]; rewrite ?andb_true_l;
    apply (string_of_uint_unreserved (_ _)).
Qed.

Lemma lookup_Values_Add_new (v : Values) (key x : string) :
  v !! key = None → Values_Add key x v !! key = Some [x].
Proof. intros Hv. unfold Values_Add. by rewrite lookup_insert_eq, Hv. Qed.

Lemma lookup_Values_Add_other (v : Values) (key x k : string) :
  key ≠ k → Values_Add key x v !! k = v !! k.
Proof. intros Hk. unfold Values_Add. by rewrite lookup_insert_ne. Qed.

Ltac lookup_in_adds :=
  repeat (rewrite lookup_Values_Add_other by discriminate);
  first [ apply lookup_empty
        | apply lookup_Values_Add_new;
          repeat (rewrite lookup_Values_Add_other by discriminate);
          apply lookup_empty ].

(** X3: with a nil mapping, as [Post], [Put] and [Options] pass, the
    query holds the fields of the signer and nothing else, in ascending
    key order: the two credentials in Basic mode, the five OAuth fields
    in OAuth1 mode, with only the credentials and the signature
    percent-encoded. *)
Theorem nil_params_query (c : Client) (method urlStr : string) (w : World) :
  (basicAuth c None w).1
  = "consumer_key=" +:+ QueryEscape (ck c)
      +:+ "&consumer_secret=" +:+ QueryEscape (cs c)
  ∧ (oauth c method urlStr None w).1
    = "oauth_consumer_key=" +:+ QueryEscape (ck c)
        +:+ "&oauth_nonce=" +:+ nonce_digest (read_nonce w)
        +:+ "&oauth_signature="
        +:+ QueryEscape (oauth_signature c method urlStr (read_nonce w) ∅)
        +:+ "&oauth_signature_method=HMAC-SHA256"
        +:+ "&oauth_timestamp=" +:+ Itoa (Unix (OauthTimestamp (opt c))).
Proof.
  rewrite basicAuth_run, oauth_run. cbn [fst params_Values].
  rewrite !Values_Encode_pairs. unfold Values_pairs. split.
  - rewrite (sorted_keys_of_dom _ ["consumer_key"; "consumer_secret"]).
    + assert (H1 : basic_Values c ∅ !! "consumer_key" = Some [ck c])
        by (unfold basic_Values; lookup_in_adds).
      assert (H2 : basic_Values c ∅ !! "consumer_secret" = Some [cs c])
        by (unfold basic_Values; lookup_in_adds).
      cbn [mbind list_bind app]. rewrite H1, H2. reflexivity.
    + apply (bool_decide_unpack _). by vm_compute.
    + apply (bool_decide_unpack _). by vm_compute.
    + unfold basic_Values. rewrite !dom_Values_Add. set_solver.
  - rewrite (sorted_keys_of_dom _
               ["oauth_consumer_key"; "oauth_nonce"; "oauth_signature";
                "oauth_signature_method"; "oauth_timestamp"]).
    + set (v := oauth_Values c method urlStr (read_nonce w) ∅).
      assert (H1 : v !! "oauth_consumer_key" = Some [ck c])
        by (unfold v, oauth_Values, oauth_fields; lookup_in_adds).
      assert (H2 : v !! "oauth_nonce"
                   = Some [nonce_digest (read_nonce w)])
        by (unfold v, oauth_Values, oauth_fields; lookup_in_adds).
      assert (H3 : v !! "oauth_signature"
                   = Some [oauth_signature c method urlStr
                             (read_nonce w) ∅])
        by (unfold v, oauth_Values, oauth_fields; lookup_in_adds).
      assert (H4 : v !! "oauth_signature_method" = Some [HashAlgorithm])
        by (unfold v, oauth_Values, oauth_fields; lookup_in_adds).
      assert (H5 : v !! "oauth_timestamp"
                   = Some [Itoa (Unix (OauthTimestamp (opt c)))])
        by (unfold v, oauth_Values, oauth_fields; lookup_in_adds).
      cbn [mbind list_bind app]. rewrite H1, H2, H3, H4, H5.
      cbn [from_option id fmap list_fmap app Join].
      unfold encode_pair. cbn [fst snd].
      rewrite nonce_digest_unreserved, Itoa_unreserved.
      change (QueryEscape "oauth_consumer_key") with "oauth_consumer_key".
      change (QueryEscape "oauth_nonce") with "oauth_nonce".
      change (QueryEscape "oauth_signature") with "oauth_signature".
      change (QueryEscape "oauth_signature_method")
        with "oauth_signature_method".
      change (QueryEscape "oauth_timestamp") with "oauth_timestamp".
      change (QueryEscape HashAlgorithm) with "HMAC-SHA256".
      rewrite !append_assoc. reflexivity.
    + apply (bool_decide_unpack _). by vm_compute.
    + apply (bool_decide_unpack _). by vm_compute.
    + unfold oauth_Values. rewrite dom_Values_Add, dom_oauth_fields.
      set_solver.
Qed.

(** ** Entropy and reuse *)

(** X4: when the entropy source has 16 bytes to give, the read succeeds,
    the nonce is those 16 bytes and the signer leaves the source past
    them; a second call therefore draws its nonce from the next 16
    bytes, not from the same ones. *)
Theorem oauth_consumes_sixteen_bytes (c : Client) (method urlStr : string)
    (params : option loc) (w : World) :
  (16 ≤ length (entropy w))%nat →
  read_error w = None
  ∧ read_nonce w = take 16 (entropy w)
  ∧ entropy (oauth c method urlStr params w).2 = drop 16 (entropy w)
  ∧ ((32 ≤ length (entropy w))%nat →
     read_nonce (oauth c method urlStr params w).2
     = take 16 (drop 16 (entropy w))).
Proof.
  intros Hlen.
  assert (Hread : ∀ w', (16 ≤ length (entropy w'))%nat →
                        read_nonce w' = take 16 (entropy w')).
  { intros w' Hw'. unfold read_nonce, rand_Read. cbn [fst].
    change (length (repeat 0 16)) with 16%nat.
    rewrite length_take, Nat.min_l by done.
    change (drop 16 (repeat 0 16)) with (@nil Z). apply app_nil_r. }
  split; [|split; [auto|split]].
  - unfold read_error, rand_Read. cbn [fst snd].
    change (length (repeat 0 16)) with 16%nat.
    rewrite length_take, Nat.min_l by done. reflexivity.
  - by rewrite oauth_run.
  - intros Hlen2. rewrite Hread; rewrite oauth_run; cbn [snd entropy].
    + done.
    + rewrite length_drop. lia.
Qed.

Lemma oauth_consumes_sixteen_bytes_witness :
  (16 ≤ length (entropy (world_with ∅ sixteen_bytes)))%nat
  ∧ read_error (world_with ∅ sixteen_bytes) = None
  ∧ read_nonce (world_with ∅ sixteen_bytes) = sixteen_bytes.
Proof.
  assert (H : (16 ≤ length (entropy (world_with ∅ sixteen_bytes)))%nat)
    by (simpl; lia).
  split; [exact H|].
  destruct (oauth_consumes_sixteen_bytes (golden_client 1000000000) "GET"
              golden_url None (world_with ∅ sixteen_bytes) H)
    as (Herr & Hnonce & _).
  split; [exact Herr | exact Hnonce].
Defined.

Lemma Values_first_oauth_Values (c : Client) (method urlStr : string)
    (nonce : list Z) (v : Values) (k : string) :
  Values_first (oauth_Values c method urlStr nonce v) k
  = match Values_first v k with
    | Some x => Some x
    | None =>
        if decide (k = "oauth_consumer_key") then Some (ck c)
        else if decide (k = "oauth_timestamp")
             then Some (Itoa (Unix (OauthTimestamp (opt c))))
        else if decide (k = "oauth_nonce") then Some (nonce_digest nonce)
        else if decide (k = "oauth_signature_method")
             then Some HashAlgorithm
        else if decide (k = "oauth_signature")
             then Some (oauth_signature c method urlStr nonce v)
        else None
    end.
Proof.
  unfold oauth_Values, oauth_fields. rewrite !Values_first_Add.
  destruct (Values_first v k) as [x|] eqn:Hk;
    repeat (case_decide; simplify_eq; try done);
    rewrite ?Hk; try done.
Qed.

(** X5: a mapping that went through [oauth] once is signed with the
    fields of that first call when it is passed again.  The second
    call's parameter string is the renderings [key=value] of its keys,
    among them [oauth_nonce], [oauth_timestamp] and [oauth_signature],
    whose rendered values are the nonce, the timestamp and the signature
    of the first call; the signature the second call stores is
    [oauthSign] of that string; and its query carries the fields of both
    calls. *)
Theorem oauth_twice_on_one_mapping
    (c c' : Client) (method urlStr method' urlStr' : string)
    (l : loc) (w : World) :
  caller_Values l w !! "oauth_nonce" = None →
  caller_Values l w !! "oauth_timestamp" = None →
  caller_Values l w !! "oauth_signature" = None →
  Values_Get
    (oauth_fields c' (read_nonce (oauth c method urlStr (Some l) w).2)
       (caller_Values l (oauth c method urlStr (Some l) w).2))
    "oauth_nonce"
  = nonce_digest (read_nonce w)
  ∧ Values_Get
      (oauth_fields c' (read_nonce (oauth c method urlStr (Some l) w).2)
         (caller_Values l (oauth c method urlStr (Some l) w).2))
      "oauth_timestamp"
    = Itoa (Unix (OauthTimestamp (opt c)))
  ∧ Values_Get
      (oauth_fields c' (read_nonce (oauth c method urlStr (Some l) w).2)
         (caller_Values l (oauth c method urlStr (Some l) w).2))
      "oauth_signature"
    = oauth_signature c method urlStr (read_nonce w) (caller_Values l w)
  ∧ query_pairs
      (oauth c' method' urlStr' (Some l)
         (oauth c method urlStr (Some l) w).2).1
    ≡ₚ (Values_pairs (caller_Values l w)
        ++ [ ("oauth_consumer_key", ck c);
             ("oauth_timestamp", Itoa (Unix (OauthTimestamp (opt c))));
             ("oauth_nonce", nonce_digest (read_nonce w));
             ("oauth_signature_method", "HMAC-SHA256");
             ("oauth_signature",
              oauth_signature c method urlStr (read_nonce w)
                (caller_Values l w)) ])
       ++ [ ("oauth_consumer_key", ck c');
            ("oauth_timestamp", Itoa (Unix (OauthTimestamp (opt c'))));
            ("oauth_nonce",
             nonce_digest
               (read_nonce (oauth c method urlStr (Some l) w).2));
            ("oauth_signature_method", "HMAC-SHA256");
            ("oauth_signature",
             oauth_signature c' method' urlStr'
               (read_nonce (oauth c method urlStr (Some l) w).2)
               (caller_Values l (oauth c method urlStr (Some l) w).2)) ]
  ∧ paramString
      (oauth_fields c' (read_nonce (oauth c method urlStr (Some l) w).2)
         (caller_Values l (oauth c method urlStr (Some l) w).2))
    = Join
        ((fun key =>
            key +:+ "=" +:+
            Values_Get
              (oauth_fields c'
                 (read_nonce (oauth c method urlStr (Some l) w).2)
                 (caller_Values l (oauth c method urlStr (Some l) w).2))
              key)
         <$> sorted_keys
               (oauth_fields c'
                  (read_nonce (oauth c method urlStr (Some l) w).2)
                  (caller_Values l (oauth c method urlStr (Some l) w).2)))
        "&"
  ∧ (∀ key,
       key ∈ ["oauth_nonce"; "oauth_timestamp"; "oauth_signature"] →
       ∃ before after,
         sorted_keys
           (oauth_fields c'
              (read_nonce (oauth c method urlStr (Some l) w).2)
              (caller_Values l (oauth c method urlStr (Some l) w).2))
         = before ++ key :: after
         ∧ key ∉ before ∧ key ∉ after)
  ∧ signature_of
      (caller_Values l
         (oauth c' method' urlStr' (Some l)
            (oauth c method urlStr (Some l) w).2).2)
    = oauthSign c' method' urlStr'
        (paramString
           (oauth_fields c'
              (read_nonce (oauth c method urlStr (Some l) w).2)
              (caller_Values l (oauth c method urlStr (Some l) w).2))).
Proof.
  intros Hn Ht Hs.
  pose proof (caller_Values_oauth c method urlStr (Some l) w) as Hafter.
  cbn [params_loc params_Values] in Hafter.
  change (default ∅ (heap w !! l)) with (caller_Values l w) in Hafter.
  set (w1 := (oauth c method urlStr (Some l) w).2) in *.
  assert (Hfirst : ∀ k x,
    Values_first (caller_Values l w1) k = Some x →
    Values_Get (oauth_fields c' (read_nonce w1) (caller_Values l w1)) k = x).
  { intros k x Hk. rewrite Values_Get_first. unfold oauth_fields.
    erewrite (Values_first_Add_Some _ _ _ _ x); [done|].
    by do 3 apply Values_first_Add_Some. }
  split; [|split; [|split; [|split; [|split; [|split]]]]].
  - apply Hfirst. rewrite Hafter, Values_first_oauth_Values.
    unfold Values_first. by rewrite Hn.
  - apply Hfirst. rewrite Hafter, Values_first_oauth_Values.
    unfold Values_first. by rewrite Ht.
  - apply Hfirst. rewrite Hafter, Values_first_oauth_Values.
    unfold Values_first. by rewrite Hs.
  - rewrite (query_pairs_oauth c' method' urlStr' (Some l) w1).
    cbn [params_Values].
    change (default ∅ (heap w1 !! l)) with (caller_Values l w1).
    rewrite Hafter at 1. by rewrite Values_pairs_oauth.
  - apply paramString_rendered.
  - intros key Hkey.
    assert (Hin : key ∈ sorted_keys
                    (oauth_fields c' (read_nonce w1) (caller_Values l w1))).
    { rewrite elem_of_sorted_keys, dom_oauth_fields, Hafter.
      unfold oauth_Values. rewrite dom_Values_Add, dom_oauth_fields.
      set_solver. }
    destruct (paramString_split _ _ Hin)
      as (before & after & Hsplit & Hb & Ha & _).
    by exists before, after.
  - pose proof (caller_Values_oauth c' method' urlStr' (Some l) w1) as H2.
    cbn [params_loc params_Values] in H2.
    change (default ∅ (heap w1 !! l)) with (caller_Values l w1) in H2.
    by rewrite H2, signature_of_oauth_Values.
Qed.

Lemma oauth_twice_on_one_mapping_witness :
  caller_Values 0%nat (world_with ∅ sixteen_bytes) !! "oauth_nonce" = None
  ∧ Values_Get
      (oauth_fields (golden_client 1000000001)
         (read_nonce
            (oauth (golden_client 1000000000) "GET" golden_url
               (Some 0%nat) (world_with ∅ sixteen_bytes)).2)
         (caller_Values 0%nat
            (oauth (golden_client 1000000000) "GET" golden_url
               (Some 0%nat) (world_with ∅ sixteen_bytes)).2))
      "oauth_timestamp"
    = "1000000000"
  ∧ paramString
      (oauth_fields (golden_client 1000000001)
         (read_nonce
            (oauth (golden_client 1000000000) "GET" golden_url
               (Some 0%nat) (world_with ∅ sixteen_bytes)).2)
         (caller_Values 0%nat
            (oauth (golden_client 1000000000) "GET" golden_url
               (Some 0%nat) (world_with ∅ sixteen_bytes)).2))
    = "oauth_consumer_key=ck&oauth_nonce=2cc429832452134629f1f6d296ec8aefb4e4d8a9&oauth_signature=MqG9XPHyD7EjTgVibiIMR+3H8FcABEvgCnJVX+2rO+U=&oauth_signature_method=HMAC-SHA256&oauth_timestamp=1000000000"
  ∧ signature_of
      (caller_Values 0%nat
         (oauth (golden_client 1000000001) "GET" golden_url (Some 0%nat)
            (oauth (golden_client 1000000000) "GET" golden_url
               (Some 0%nat) (world_with ∅ sixteen_bytes)).2).2)
    = oauthSign (golden_client 1000000001) "GET" golden_url
        "oauth_consumer_key=ck&oauth_nonce=2cc429832452134629f1f6d296ec8aefb4e4d8a9&oauth_signature=MqG9XPHyD7EjTgVibiIMR+3H8FcABEvgCnJVX+2rO+U=&oauth_signature_method=HMAC-SHA256&oauth_timestamp=1000000000"
  ∧ (oauth (golden_client 1000000000) "GET" golden_url
       (Some 0%nat) (world_with ∅ sixteen_bytes)).1
    = "oauth_consumer_key=ck&oauth_nonce=2cc429832452134629f1f6d296ec8aefb4e4d8a9&oauth_signature=MqG9XPHyD7EjTgVibiIMR%2B3H8FcABEvgCnJVX%2B2rO%2BU%3D&oauth_signature_method=HMAC-SHA256&oauth_timestamp=1000000000".
Proof.
  assert (Hn : caller_Values 0%nat (world_with ∅ sixteen_bytes)
                 !! "oauth_nonce" = None) by reflexivity.
  assert (Ht : caller_Values 0%nat (world_with ∅ sixteen_bytes)
                 !! "oauth_timestamp" = None) by reflexivity.
  assert (Hs : caller_Values 0%nat (world_with ∅ sixteen_bytes)
                 !! "oauth_signature" = None) by reflexivity.
  split; [exact Hn|].
  destruct (oauth_twice_on_one_mapping
              (golden_client 1000000000) (golden_client 1000000001)
              "GET" golden_url "GET" golden_url 0%nat
              (world_with ∅ sixteen_bytes) Hn Ht Hs)
    as (_ & Hts & _ & _ & _ & _ & Hsig).
  assert (Hp : paramString
      (oauth_fields (golden_client 1000000001)
         (read_nonce
            (oauth (golden_client 1000000000) "GET" golden_url
               (Some 0%nat) (world_with ∅ sixteen_bytes)).2)
         (caller_Values 0%nat
            (oauth (golden_client 1000000000) "GET" golden_url
               (Some 0%nat) (world_with ∅ sixteen_bytes)).2))
    = "oauth_consumer_key=ck&oauth_nonce=2cc429832452134629f1f6d296ec8aefb4e4d8a9&oauth_signature=MqG9XPHyD7EjTgVibiIMR+3H8FcABEvgCnJVX+2rO+U=&oauth_signature_method=HMAC-SHA256&oauth_timestamp=1000000000")
    by (vm_compute; reflexivity).
  split; [exact Hts|]. split; [exact Hp|]. split; [by rewrite <- Hp|].
  vm_compute. reflexivity.
Defined.

(** ** The size of the nonce and of the signature *)

Lemma to_be_length (n : nat) (x : Z) : length (Word32.to_be n x) = n.
Proof.
  revert x. induction n as [|n IH]; intros x; [done|].
  cbn [Word32.to_be]. rewrite length_app, IH. simpl. lia.
Qed.

Lemma flat_map_to_be_length (h : list Z) :
  length (flat_map (Word32.to_be 4) h) = (4 * length h)%nat.
Proof.
  induction h as [|x h IH]; [done|].
  cbn [flat_map]. rewrite length_app, to_be_length, IH. simpl. lia.
Qed.

Lemma fold_left_invariant {A B} (P : A → Prop) (f : A → B → A)
    (l : list B) (a : A) :
  (∀ a b, P a → P (f a b)) → P a → P (fold_left f l a).
Proof.
  intros Hf. revert a. induction l as [|b l IH]; intros a Ha; [done|].
  apply IH, Hf, Ha.
Qed.

Lemma SHA1_round_length (st : list Z * list Z) (t : nat) :
  length st.1 = 5%nat → length (SHA1.round st t).1 = 5%nat.
Proof.
  destruct st as [[|a [|b [|c [|d [|e [|x regs]]]]]] win]; done.
Qed.

Lemma SHA1_compress_length (h block : list Z) :
  length h = 5%nat → length (SHA1.compress h block) = 5%nat.
Proof.
  intros Hh. unfold SHA1.compress.
  pose proof (fold_left_invariant (fun st => length st.1 = 5%nat)
                SHA1.round (seq 0 80) (h, Word32.block_words block)
                SHA1_round_length Hh) as Hregs.
  destruct (fold_left SHA1.round _ _) as [regs win].
  rewrite length_zip_with. cbn [fst] in Hregs. lia.
Qed.

Lemma SHA1_Sum_length (msg : list Z) : length (SHA1.Sum msg) = 20%nat.
Proof.
  unfold SHA1.Sum. rewrite flat_map_to_be_length.
  rewrite (fold_left_invariant (fun h => length h = 5%nat)
             SHA1.compress (md_blocks msg) SHA1.init
             SHA1_compress_length eq_refl).
  done.
Qed.

Lemma SHA256_round_length (st : list Z * list Z) (k : Z) :
  length st.1 = 8%nat → length (SHA256.round st k).1 = 8%nat.
Proof.
  destruct st
    as [[|a [|b [|c [|d [|e [|f [|g [|h [|x regs]]]]]]]]] win]; done.
Qed.

Lemma SHA256_compress_length (h block : list Z) :
  length h = 8%nat → length (SHA256.compress h block) = 8%nat.
Proof.
  intros Hh. unfold SHA256.compress.
  pose proof (fold_left_invariant (fun st => length st.1 = 8%nat)
                SHA256.round SHA256.K (h, Word32.block_words block)
                SHA256_round_length Hh) as Hregs.
  destruct (fold_left SHA256.round _ _) as [regs win].
  rewrite length_zip_with. cbn [fst] in Hregs. lia.
Qed.

Lemma Sum256_length (msg : list Z) : length (SHA256.Sum256 msg) = 32%nat.
Proof.
  unfold SHA256.Sum256. rewrite flat_map_to_be_length.
  rewrite (fold_left_invariant (fun h => length h = 8%nat)
             SHA256.compress (md_blocks msg) SHA256.init
             SHA256_compress_length eq_refl).
  done.
Qed.

Lemma hex_lower_String_length (b : list Z) :
  String.length (hex_lower b) = (2 * length b)%nat.
Proof. induction b as [|x b IH]; simpl; [done | lia]. Qed.

Lemma EncodeToString_length (l : list Z) :
  String.length (EncodeToString l) = base64_length (length l).
Proof.
  remember (length l) as n eqn:Hn.
  revert l Hn. induction (lt_wf n) as [n _ IH]. intros l ->.
  destruct l as [|x [|y [|z rest]]]; [done..|].
  cbn [EncodeToString String.length length base64_length].
  rewrite (IH (length rest)); [done | simpl; lia | done].
Qed.

(** X6: whatever is signed, [oauth_nonce] is 40 characters long and the
    signature 44: the hexadecimal SHA-1 digest of the nonce buffer and
    the padded base64 of a 32-byte HMAC. *)
Theorem nonce_and_signature_lengths (c : Client)
    (method endpoint params : string) (nonce : list Z) :
  String.length (nonce_digest nonce) = 40%nat
  ∧ String.length (oauthSign c method endpoint params) = 44%nat.
Proof.
  split.
  - unfold nonce_digest. by rewrite hex_lower_String_length, SHA1_Sum_length.
  - unfold oauthSign, hmac_sha256.
    by rewrite EncodeToString_length, Sum256_length.
Qed.

(** * More on the request builder *)

Section RequestMore.
Variable URL_String : URL -> string.
Variable url_Parse : string -> URL + string.
Variable network : HTTPClient -> Request -> Response + string.

Implicit Types (c : Client) (w : World) (params : option loc).

Local Abbreviation sign := (signed_url URL_String).
Local Abbreviation sent := (dispatched_request URL_String).

Lemma recognised_no_ErrMethod c method endpoint params data w :
  recognised method = true →
  ∀ m, (request URL_String url_Parse network c method endpoint params
     data w).1
       ≠ Returns None (Some (ErrMethod m)).
Proof.
  intros Hm m. rewrite request_run. cbn zeta. rewrite Hm.
  destruct (url_Parse _); [|done]. cbn [fst].
  destruct (network _ _); [|done]. by destruct (negb _ && negb _).
Qed.

(** The trace of a call: what was there, the printed body, and the
    request when one was sent. *)
Lemma request_trace c method endpoint params data w :
  trace (request URL_String url_Parse network c method endpoint params
     data w).2
  = trace w ++ EvPrintln data
      :: (if recognised method
          then match url_Parse (sign c method endpoint params w).1 with
               | inl _ => [EvDo (sent c method endpoint params data w)]
               | inr _ => []
               end
          else []).
Proof.
  rewrite request_run. cbn zeta. destruct (recognised method).
  - destruct (url_Parse _); cbn [snd trace]; rewrite signed_url_run;
      cbn [snd trace]; by rewrite <-?app_assoc.
  - cbn [snd trace]. by rewrite signed_url_run.
Qed.

(** X7: none of the five public operations can return the error for an
    unrecognised method, whatever the endpoint, the parameters, the
    body and the network are. *)
Theorem public_operations_pass_validation c endpoint params data w m :
  (Post URL_String url_Parse network c endpoint data w).1
    ≠ Returns None (Some (ErrMethod m))
  ∧ (Put URL_String url_Parse network c endpoint data w).1
    ≠ Returns None (Some (ErrMethod m))
  ∧ (Get URL_String url_Parse network c endpoint params w).1
    ≠ Returns None (Some (ErrMethod m))
  ∧ (Delete URL_String url_Parse network c endpoint params w).1
    ≠ Returns None (Some (ErrMethod m))
  ∧ (Options URL_String url_Parse network c endpoint w).1
    ≠ Returns None (Some (ErrMethod m)).
Proof.
  unfold Post, Put, Get, Delete, Options.
  repeat split; by apply recognised_no_ErrMethod.
Qed.

(** X8: a call sends at most one request, after printing the body.  The
    request carries the body the caller gave and one header,
    [Content-Type: application/json], for every method, GET and OPTIONS
    included; no [User-Agent] header is set. *)
Theorem request_sends_json c method endpoint params data w :
  ∃ events,
    trace (request URL_String url_Parse network c method endpoint params
     data w).2
    = trace w ++ EvPrintln data :: events
    ∧ (events = []
       ∨ ∃ req,
           events = [EvDo req]
           ∧ Body req = data
           ∧ Header req = {[ "Content-Type" := ["application/json"] ]}
           ∧ Header req !! "User-Agent" = None).
Proof.
  rewrite request_trace. eexists. split; [done|].
  destruct (recognised method); [|by left].
  destruct (url_Parse _); [|by left].
  right. eexists. by repeat split.
Qed.

(** X9: when the signed URL does not parse, [request] does not return
    the error of [http.NewRequest]: it sets the header on the nil
    request and panics.  Nothing is sent. *)
Theorem request_panics_on_unparsable_url
    c method endpoint params data w err :
  recognised method = true →
  url_Parse (sign c method endpoint params w).1 = inr err →
  (request URL_String url_Parse network c method endpoint params
     data w).1
  = Panics "invalid memory address or nil pointer dereference"
  ∧ trace (request URL_String url_Parse network c method endpoint params
     data w).2
    = trace w ++ [EvPrintln data].
Proof.
  intros Hm Hu. rewrite request_trace, Hm, Hu. split; [|done].
  rewrite request_run. cbn zeta. by rewrite Hm, Hu.
Qed.

(** X10: a transport error is returned as it is, with no body, after
    one attempt: there is no retry. *)
Theorem request_returns_transport_error
    c method endpoint params data w u msg :
  recognised method = true →
  url_Parse (sign c method endpoint params w).1 = inl u →
  network (rawClient c) (sent c method endpoint params data w) = inr msg →
  (request URL_String url_Parse network c method endpoint params
     data w).1
  = Returns None (Some (ErrLibrary msg))
  ∧ Error (ErrLibrary msg) = msg
  ∧ trace (request URL_String url_Parse network c method endpoint params
     data w).2
    = trace w ++ [EvPrintln data;
                  EvDo (sent c method endpoint params data w)].
Proof.
  intros Hm Hu Hnet. rewrite request_trace, Hm, Hu.
  split; [|done]. rewrite request_run. cbn zeta.
  by rewrite Hm, Hu, Hnet.
Qed.


(** X12: a call changes no mapping but the one it was given.  With a
    nil mapping it works on a fresh one, so every mapping that existed
    before the call is as it was. *)
Theorem request_frame c method endpoint params data w :
  (∀ l, l ≠ params_loc params w →
        heap (request URL_String url_Parse network c method endpoint params
     data w).2 !! l = heap w !! l)
  ∧ (∀ l, is_Some (heap w !! l) →
          heap (request URL_String url_Parse network c method endpoint None
                  data w).2 !! l = heap w !! l).
Proof.
  assert (Hheap : ∀ params' l, l ≠ params_loc params' w →
            heap (request URL_String url_Parse network c method endpoint
                    params' data w).2 !! l
            = heap w !! l).
  { intros params' l Hl. rewrite request_run. cbn zeta.
    rewrite signed_url_run.
    destruct (recognised method); [destruct (url_Parse _)|];
      cbn [fst snd heap]; by rewrite lookup_insert_ne. }
  split; [apply Hheap|].
  intros l Hl. apply Hheap. cbn [params_loc]. intros ->.
  apply elem_of_dom in Hl. by apply is_fresh in Hl.
Qed.

(** ** NewClient *)

Lemma NewClient_inv now store k s option c :
  NewClient url_Parse now store k s option = inl c →
  ∃ u, url_Parse store = inl u
       ∧ storeURL c
         = {| Scheme := Scheme u; Host := Host u;
              Path := (if API (given_options option)
                       then APIPrefix (given_options option)
                       else "/wc-api/")
                      +:+ (if String.eqb (OptVersion (given_options option))
                                ""
                           then "v3"
                           else OptVersion (given_options option))
                      +:+ "/";
              RawQuery := RawQuery u |}
       ∧ ck c = k ∧ cs c = s
       ∧ API (opt c) = API (given_options option)
       ∧ APIPrefix (opt c) = APIPrefix (given_options option)
       ∧ OptVersion (opt c) = OptVersion (given_options option)
       ∧ VerifySSL (opt c) = VerifySSL (given_options option)
       ∧ OauthTimestamp (opt c)
         = (if IsZero (OauthTimestamp (given_options option))
            then now else OauthTimestamp (given_options option))
       ∧ InsecureSkipVerify (rawClient c)
         = negb (VerifySSL (given_options option)).
Proof.
  unfold NewClient. destruct (url_Parse store) as [u|err]; [|done].
  intros [= <-]. exists u. split; [done|].
  change (match option with Some o => o | None => _ end)
    with (given_options option).
  destruct (IsZero (OauthTimestamp (given_options option)));
    cbn [storeURL ck cs opt rawClient API APIPrefix OptVersion VerifySSL
         OauthTimestamp InsecureSkipVerify];
    destruct (String.eqb (OptVersion (given_options option)) "");
    by repeat split.
Qed.

(** X13: [NewClient] fails exactly when the store URL does not parse,
    and then returns the parse error.  Otherwise the client keeps the
    credentials, the scheme, the host and the query of the store URL,
    and replaces its path by the API prefix ([/wc-api/] unless the
    options give another), the version ([v3] when the options give
    none) and a closing [/]. *)
Theorem NewClient_result now store k s option :
  match url_Parse store with
  | inr err =>
      NewClient url_Parse now store k s option = inr (ErrLibrary err)
  | inl u =>
      ∃ c, NewClient url_Parse now store k s option = inl c
           ∧ ck c = k ∧ cs c = s
           ∧ Scheme (storeURL c) = Scheme u
           ∧ Host (storeURL c) = Host u
           ∧ RawQuery (storeURL c) = RawQuery u
           ∧ Path (storeURL c)
             = (if API (given_options option)
                then APIPrefix (given_options option) else "/wc-api/")
               +:+ (if String.eqb (OptVersion (given_options option)) ""
                    then "v3" else OptVersion (given_options option))
               +:+ "/"
  end.
Proof.
  destruct (url_Parse store) as [u|err] eqn:Hu.
  - destruct (NewClient url_Parse now store k s option) as [c|e] eqn:Hc.
    + exists c. apply NewClient_inv in Hc
        as (u' & Hu' & Hurl & Hck & Hcs & _).
      rewrite Hu in Hu'. injection Hu' as <-. rewrite Hurl.
      by repeat split.
    + unfold NewClient in Hc. by rewrite Hu in Hc.
  - unfold NewClient. by rewrite Hu.
Qed.

(** X14: a client checks TLS certificates only when the options ask
    for it: [InsecureSkipVerify] is the negation of [VerifySSL], and it
    is set for a client made with nil options. *)
Theorem NewClient_skips_verification_by_default now store k s option c :
  NewClient url_Parse now store k s option = inl c →
  InsecureSkipVerify (rawClient c) = negb (VerifySSL (given_options option))
  ∧ (option = None → InsecureSkipVerify (rawClient c) = true).
Proof.
  intros Hc. apply NewClient_inv in Hc as (u & _ & _ & _ & _ & _ & _ & _ & _
                                           & _ & Htls).
  split; [done|]. intros ->. by rewrite Htls.
Qed.

(** X15: the timestamp a client signs is fixed when the client is made:
    the one in the options, or the time of construction when the
    options hold the zero time.  Every OAuth1 query of the client
    carries it, whenever the request is made. *)
Theorem NewClient_fixes_timestamp now store k s option c :
  NewClient url_Parse now store k s option = inl c →
  OauthTimestamp (opt c)
  = (if IsZero (OauthTimestamp (given_options option))
     then now else OauthTimestamp (given_options option))
  ∧ ∀ method urlStr params w,
      ("oauth_timestamp",
       Itoa (Unix (if IsZero (OauthTimestamp (given_options option))
                   then now else OauthTimestamp (given_options option))))
      ∈ query_pairs (oauth c method urlStr params w).1.
Proof.
  intros Hc. apply NewClient_inv in Hc as (u & _ & _ & _ & _ & _ & _ & _ & _
                                           & Hts & _).
  split; [done|]. intros method urlStr params w.
  rewrite query_pairs_oauth, Hts. apply elem_of_app. right.
  apply elem_of_cons. right. by left.
Qed.

End RequestMore.

Lemma request_panics_on_unparsable_url_witness :
  recognised "GET" = true
  ∧ (request plain_URL_String rejecting_Parse (answering not_found)
       (golden_client 1000000000) "GET" "products" None None
       starved_world).1
    = Panics "invalid memory address or nil pointer dereference".
Proof.
  split; [reflexivity|].
  destruct (request_panics_on_unparsable_url plain_URL_String
              rejecting_Parse (answering not_found)
              (golden_client 1000000000) "GET" "products" None None
              starved_world "invalid URL" eq_refl eq_refl) as [Hout _].
  exact Hout.
Defined.

Lemma request_returns_transport_error_witness :
  recognised "PUT" = true
  ∧ (request plain_URL_String lenient_Parse refusing
       (golden_client 1000000000) "PUT" "products/1" None (Some "{}")
       starved_world).1
    = Returns None (Some (ErrLibrary "connection refused")).
Proof.
  split; [reflexivity|].
  destruct (request_returns_transport_error plain_URL_String
              lenient_Parse refusing (golden_client 1000000000)
              "PUT" "products/1" None (Some "{}") starved_world
              {| Scheme := ""; Host := ""; RawQuery := "";
                 Path := (signed_url plain_URL_String
                            (golden_client 1000000000) "PUT" "products/1"
                            None starved_world).1 |}
              "connection refused" eq_refl eq_refl eq_refl) as [Hout _].
  exact Hout.
Defined.

Lemma NewClient_skips_verification_by_default_witness :
  NewClient lenient_Parse construction_time "http://example.com" "ck" "cs"
    None = inl (nil_options_client construction_time)
  ∧ InsecureSkipVerify (rawClient (nil_options_client construction_time))
    = true.
Proof.
  assert (H : NewClient lenient_Parse construction_time "http://example.com"
                "ck" "cs" None
              = inl (nil_options_client construction_time)) by reflexivity.
  split; [exact H|].
  destruct (NewClient_skips_verification_by_default lenient_Parse
              construction_time "http://example.com" "ck" "cs" None
              (nil_options_client construction_time) H) as [_ Hnil].
  exact (Hnil eq_refl).
Defined.

Lemma NewClient_fixes_timestamp_witness :
  NewClient lenient_Parse construction_time "http://example.com" "ck" "cs"
    None = inl (nil_options_client construction_time)
  ∧ OauthTimestamp (opt (nil_options_client construction_time))
    = construction_time.
Proof.
  assert (H : NewClient lenient_Parse construction_time "http://example.com"
                "ck" "cs" None
              = inl (nil_options_client construction_time)) by reflexivity.
  split; [exact H|].
  destruct (NewClient_fixes_timestamp lenient_Parse
              construction_time "http://example.com" "ck" "cs" None
              (nil_options_client construction_time) H) as [Hts _].
  exact Hts.
Defined.

(** * The order and the coverage of the query *)

Lemma Values_pairs_keys_sorted (v : Values) :
  Sorted String.le (Values_pairs v).*1.
Proof.
  apply StronglySorted_Sorted. unfold Values_pairs.
  pose proof (StronglySorted_merge_sort String.le (map_to_list v).*1)
    as Hkeys.
  change (merge_sort String.le (map_to_list v).*1)
    with (sorted_keys v) in Hkeys.
  induction Hkeys as [|k keys Hkeys IH Hle]; [constructor|].
  rewrite bind_cons, fmap_app. apply StronglySorted_app.
  split; [|split].
  - intros k1 k2 Hk1 Hk2.
    apply list_elem_of_fmap in Hk1 as ([k1' x1] & -> & Hk1).
    apply list_elem_of_fmap in Hk1 as (x1' & [= -> _] & _).
    apply list_elem_of_fmap in Hk2 as ([k2' x2] & -> & Hk2).
    apply list_elem_of_bind in Hk2 as (k2 & Hk2 & Hin).
    apply list_elem_of_fmap in Hk2 as (x2' & [= -> _] & _).
    cbn [fst]. rewrite Forall_forall in Hle. by apply Hle.
  - induction (default [] (v !! k)) as [|x xs IHxs]; [constructor|].
    cbn [fmap list_fmap fst]. constructor; [done|].
    apply Forall_forall. intros k' Hk'.
    apply list_elem_of_fmap in Hk' as ([k'' x'] & -> & Hk').
    by apply list_elem_of_fmap in Hk' as (x'' & [= -> _] & _).
  - done.
Qed.

(** X16: the pairs of the query a signer returns come in ascending key
    order (bytewise), the caller's keys and the signer's interleaved. *)
Theorem signed_query_sorted (c : Client) (method urlStr : string)
    (params : option loc) (w : World) :
  Sorted String.le (query_pairs (basicAuth c params w).1).*1
  ∧ Sorted String.le (query_pairs (oauth c method urlStr params w).1).*1.
Proof.
  rewrite basicAuth_run, oauth_run. cbn [fst].
  rewrite !query_pairs_Values_Encode.
  split; apply Values_pairs_keys_sorted.
Qed.

(** X17: in OAuth1 mode the consumer secret is not sent: a pair of the
    query whose key is [consumer_secret] or [consumer_key] is one the
    caller passed. *)
Theorem oauth_query_has_no_secret_field (c : Client) (method urlStr : string)
    (params : option loc) (w : World) (k x : string) :
  k = "consumer_secret" ∨ k = "consumer_key" →
  (k, x) ∈ query_pairs (oauth c method urlStr params w).1 →
  (k, x) ∈ Values_pairs (params_Values params w).
Proof.
  intros Hk Hin. rewrite query_pairs_oauth in Hin.
  apply elem_of_app in Hin as [Hin|Hin]; [done|].
  repeat (apply elem_of_cons in Hin as [[= -> _]|Hin];
          [by destruct Hk|]).
  by apply elem_of_nil in Hin.
Qed.

Lemma oauth_query_has_no_secret_field_witness :
  ("consumer_secret" = "consumer_secret"
   ∨ "consumer_secret" = "consumer_key")
  ∧ ("consumer_secret", "cs")
    ∉ query_pairs
        (oauth (golden_client 1000000000) "GET" golden_url None
           starved_world).1.
Proof.
  split; [by left|]. intros Hin.
  apply (oauth_query_has_no_secret_field (golden_client 1000000000)
           "GET" golden_url None starved_world "consumer_secret" "cs")
    in Hin; [|by left].
  cbn [params_Values] in Hin. vm_compute in Hin. by apply elem_of_nil in Hin.
Defined.

(** X18: a key the caller binds to an empty slice is signed and not
    sent: it is rendered, with an empty value, into the parameter
    string that is signed, and the query holds no pair for it. *)
Theorem oauth_signs_keys_without_values (c : Client) (method urlStr : string)
    (params : option loc) (w : World) (k : string) :
  params_Values params w !! k = Some [] →
  k ∉ ["oauth_consumer_key"; "oauth_timestamp"; "oauth_nonce";
       "oauth_signature_method"; "oauth_signature"] →
  k ∈ sorted_keys (oauth_fields c (read_nonce w) (params_Values params w))
  ∧ Values_Get (oauth_fields c (read_nonce w) (params_Values params w)) k
    = ""
  ∧ ∀ x, (k, x) ∉ query_pairs (oauth c method urlStr params w).1.
Proof.
  intros Hk Hnot. split; [|split].
  - rewrite elem_of_sorted_keys, dom_oauth_fields.
    apply elem_of_union_r, elem_of_dom. eauto.
  - rewrite Values_Get_first. unfold oauth_fields.
    rewrite !Values_first_Add. unfold Values_first. rewrite Hk.
    repeat (case_decide; [subst; exfalso; apply Hnot; set_solver|]).
    done.
  - intros x Hin. rewrite query_pairs_oauth in Hin.
    apply elem_of_app in Hin as [Hin|Hin].
    + apply elem_of_Values_pairs in Hin as (xs & Hxs & Hx).
      rewrite Hk in Hxs. injection Hxs as <-. by apply elem_of_nil in Hx.
    + apply Hnot.
      repeat (apply elem_of_cons in Hin as [[= -> _]|Hin];
              [set_solver|]).
      by apply elem_of_nil in Hin.
Qed.

Lemma oauth_signs_keys_without_values_witness :
  params_Values (Some 0%nat) (world_with empty_slice_params sixteen_bytes)
    !! "page" = Some []
  ∧ paramString
      (oauth_fields (golden_client 1000000000)
         (read_nonce (world_with empty_slice_params sixteen_bytes))
         (params_Values (Some 0%nat)
            (world_with empty_slice_params sixteen_bytes)))
    = "oauth_consumer_key=ck&oauth_nonce=2cc429832452134629f1f6d296ec8aefb4e4d8a9&oauth_signature_method=HMAC-SHA256&oauth_timestamp=1000000000&page="
  ∧ Values_Get
      (oauth_fields (golden_client 1000000000)
         (read_nonce (world_with empty_slice_params sixteen_bytes))
         (params_Values (Some 0%nat)
            (world_with empty_slice_params sixteen_bytes))) "page" = "".
Proof.
  assert (H : params_Values (Some 0%nat)
                (world_with empty_slice_params sixteen_bytes)
                !! "page" = Some []) by reflexivity.
  split; [exact H|]. split; [vm_compute; reflexivity|].
  assert (Hnot : "page" ∉ ["oauth_consumer_key"; "oauth_timestamp";
                           "oauth_nonce"; "oauth_signature_method";
                           "oauth_signature"]).
  { intros Hin. repeat (apply elem_of_cons in Hin as [Hin|Hin];
                        [discriminate Hin|]).
    by apply elem_of_nil in Hin. }
  destruct (oauth_signs_keys_without_values (golden_client 1000000000)
              "GET" golden_url (Some 0%nat)
              (world_with empty_slice_params sixteen_bytes) "page" H Hnot)
    as (_ & Hget & _).
  exact Hget.
Defined.
